(** * Ingestion and normalization pipeline of the image-processing service

    Shallow embedding of [app/services/file_info_service.py],
    [app/services/ai_service.py] and the encoding helper of
    [ejemplo_uso.py], together with the parts of the Python standard
    library they call ([str.split], [str.strip], [base64], [json]).

    Conventions.  A method that can raise returns a [result]; a
    [try ... except Exception] block is a [match] on the [result] of its
    body.  The calls to the injected logger are taken to return normally
    and are left out.  The external model is a function held by the
    service object, and [process_image] threads the list of calls made to
    it.  [binascii] is modelled as in CPython 3.11 and later, [json] as
    its scanner reads the grammar; limits of the interpreter (recursion
    depth, length of integer literals) are not modelled. *)

From Stdlib Require Import List NArith ZArith QArith Bool Lia.
From Stdlib Require Import Strings.Ascii Strings.String Strings.Byte.
Import ListNotations.

Local Open Scope N_scope.

(** ** Python values used by the services *)

(** A Python [str] is a sequence of Unicode code points. *)
Definition str := list N.

(** A Python [bytes] object. *)
Definition bytes := list byte.

Definition ord (a : ascii) : N := N_of_ascii a.

(** [u "..."] is the [str] whose code points are the (ASCII) characters
    of the literal. *)
Definition u (s : string) : str := map ord (list_ascii_of_string s).

Fixpoint str_eqb (a b : str) : bool :=
  match a, b with
  | [], [] => true
  | x :: a', y :: b' => (x =? y) && str_eqb a' b'
  | _, _ => false
  end.

(** Exceptions the modelled code can raise.  [BinasciiError] is
    [binascii.Error], a subclass of [ValueError]; every constructor is an
    [Exception] for the purposes of [except Exception]. *)
Inductive padding_error :=
| IncorrectPadding
| OneMoreThanMultipleOf4 (data_chars : N).

Inductive exn :=
| ValueError (msg : str)
| BinasciiError (why : padding_error)
| IndexError
| JSONDecodeError
| RecursionError
| GatewayError (detail : str).

Inductive result (A : Type) :=
| Return (a : A)
| Raise (e : exn).
Arguments Return {A} a.
Arguments Raise {A} e.

Definition bind {A B} (r : result A) (k : A -> result B) : result B :=
  match r with
  | Return a => k a
  | Raise e => Raise e
  end.

Notation "x <- r ;; k" := (bind r (fun x => k))
  (at level 61, r at next level, right associativity).

(** ** [str] operations *)

Definition comma : N := ord ",".

(** [c in s] for a one-character [c]. *)
Definition contains (c : N) (s : str) : bool := existsb (N.eqb c) s.

(** [s.split(sep)] for a one-character separator: every occurrence of
    [sep] ends a field. *)
Fixpoint split (sep : N) (s : str) : list str :=
  match s with
  | [] => [[]]
  | c :: t =>
      if c =? sep then [] :: split sep t
      else match split sep t with
           | [] => [[c]]
           | field :: fields => (c :: field) :: fields
           end
  end.

(** [l[i]], raising [IndexError] out of range. *)
Definition getitem {A} (l : list A) (i : nat) : result A :=
  match nth_error l i with
  | Some a => Return a
  | None => Raise IndexError
  end.

(** [str.lower] on the ASCII letters; the services apply it to the
    ASCII-only type names. *)
Definition lower (s : str) : str :=
  map (fun c => if (65 <=? c) && (c <=? 90) then c + 32 else c) s.

(** ** [base64] *)

Module Base64.

Definition BASE64_PAD : N := ord "=".

Definition table_b2a_base64 : str :=
  u "ABCDEFGHIJKLMNOPQRSTUVWXYZabcdefghijklmnopqrstuvwxyz0123456789+/".

Definition b2a (sextet : N) : N := nth (N.to_nat sextet) table_b2a_base64 0.

Fixpoint index_of (c : N) (l : str) (i : N) : option N :=
  match l with
  | [] => None
  | x :: l' => if x =? c then Some i else index_of c l' (i + 1)
  end.

(** [table_a2b_base64[ch]]: the sextet of an alphabet character and
    [(unsigned char)-1] for every other byte. *)
Definition table_a2b_base64 (ch : N) : N :=
  match index_of ch table_b2a_base64 0 with
  | Some i => i
  | None => 255
  end.

Definition to_byte (n : N) : byte :=
  match Byte.of_N (N.land n 255) with
  | Some b => b
  | None => x00
  end.

(** [binascii.b2a_base64(data, newline=False)]: three input bytes give
    four alphabet characters; a final group of one or two bytes is
    padded. *)
Fixpoint b2a_base64 (data : bytes) : str :=
  match data with
  | [] => []
  | [a] =>
      let a := Byte.to_N a in
      [ b2a (N.shiftr a 2);
        b2a (N.shiftl (N.land a 3) 4);
        BASE64_PAD; BASE64_PAD ]
  | [a; b] =>
      let a := Byte.to_N a in
      let b := Byte.to_N b in
      [ b2a (N.shiftr a 2);
        b2a (N.lor (N.shiftl (N.land a 3) 4) (N.shiftr b 4));
        b2a (N.shiftl (N.land b 15) 2);
        BASE64_PAD ]
  | a :: b :: c :: rest =>
      let a := Byte.to_N a in
      let b := Byte.to_N b in
      let c := Byte.to_N c in
      b2a (N.shiftr a 2)
      :: b2a (N.lor (N.shiftl (N.land a 3) 4) (N.shiftr b 4))
      :: b2a (N.lor (N.shiftl (N.land b 15) 2) (N.shiftr c 6))
      :: b2a (N.land c 63)
      :: b2a_base64 rest
  end.

(** The loop of [binascii.a2b_base64] in its default, non-strict mode.
    [quad_pos] is the position in the current group of four, [leftchar]
    the bits not yet written, [pads] the run of padding characters just
    seen, [bin_data] the bytes written so far. *)
Fixpoint a2b_loop (ascii_data : list N)
         (quad_pos leftchar pads : N) (bin_data : bytes) : result bytes :=
  match ascii_data with
  | [] =>
      if quad_pos =? 0 then Return bin_data
      else if quad_pos =? 1 then
        Raise (BinasciiError
                 (OneMoreThanMultipleOf4
                    (N.of_nat (List.length bin_data) / 3 * 4 + 1)))
      else Raise (BinasciiError IncorrectPadding)
  | this_ch :: rest =>
      if this_ch =? BASE64_PAD then
        if (2 <=? quad_pos) && (4 <=? quad_pos + (pads + 1))
        then Return bin_data
        else a2b_loop rest quad_pos leftchar
               (if 2 <=? quad_pos then pads + 1 else pads) bin_data
      else
        let this_ch := table_a2b_base64 this_ch in
        if 64 <=? this_ch then a2b_loop rest quad_pos leftchar pads bin_data
        else if quad_pos =? 0 then
          a2b_loop rest 1 this_ch 0 bin_data
        else if quad_pos =? 1 then
          a2b_loop rest 2 (N.land this_ch 15) 0
            (bin_data ++ [to_byte (N.lor (N.shiftl leftchar 2) (N.shiftr this_ch 4))])
        else if quad_pos =? 2 then
          a2b_loop rest 3 (N.land this_ch 3) 0
            (bin_data ++ [to_byte (N.lor (N.shiftl leftchar 4) (N.shiftr this_ch 2))])
        else
          a2b_loop rest 0 0 0
            (bin_data ++ [to_byte (N.lor (N.shiftl leftchar 6) this_ch)])
  end.

Definition a2b_base64 (ascii_data : list N) : result bytes :=
  a2b_loop ascii_data 0 0 0 [].

Definition only_ascii_msg : str :=
  u "string argument should contain only ASCII characters".

(** [base64.b64decode(s)] on a [str]: the text is first encoded as
    ASCII ([ValueError] when it is not), then handed to
    [binascii.a2b_base64]. *)
Definition b64decode (s : str) : result bytes :=
  if forallb (fun c => c <? 128) s then a2b_base64 s
  else Raise (ValueError only_ascii_msg).

(** [base64.b64encode(data)], a [bytes] object of ASCII characters. *)
Definition b64encode (data : bytes) : list N := b2a_base64 data.

End Base64.

(** ** Payload decoding

    Each service method opens with the same three statements:
<<
    if ',' in file_base64:
        file_base64 = file_base64.split(',')[1]
    file_bytes = base64.b64decode(file_base64)
>>
*)

Definition payload_segment (file_base64 : str) : result str :=
  if contains comma file_base64
  then getitem (split comma file_base64) 1
  else Return file_base64.

Definition decode_payload (file_base64 : str) : result bytes :=
  segment <- payload_segment file_base64 ;;
  Base64.b64decode segment.

(** [encode_image_to_base64] of [ejemplo_uso.py], applied to the content
    of the file it reads: [base64.b64encode(data).decode('utf-8')]. *)
Definition encode_image_to_base64 (data : bytes) : str :=
  Base64.b64encode data.

(** ** [app/services/file_info_service.py] *)

(** A Python [float], modelled by a rational: the float is the double
    nearest to that rational.  Which decimal a float stands for, and
    the order of floats, are read off the rationals; the distance
    between a float and the rational that models it (at most half a
    unit in its last place) is not part of the model. *)
Definition pyfloat := Q.

(** [round(x, 2)]: the nearest multiple of 1/100, ties to the even one. *)
Definition round2 (x : Q) : pyfloat :=
  let num := (100 * Qnum x)%Z in
  let den := Z.pos (Qden x) in
  let q := (num / den)%Z in
  let r := (num mod den)%Z in
  let k := if (2 * r <? den)%Z then q
           else if (den <? 2 * r)%Z then (q + 1)%Z
           else if Z.even q then q else (q + 1)%Z in
  Qred (k # 100).

Fixpoint startswith (data prefix : bytes) : bool :=
  match prefix, data with
  | [], _ => true
  | p :: prefix', d :: data' => Byte.eqb d p && startswith data' prefix'
  | _ :: _, [] => false
  end.

Module FileInfoService.

Definition PDF_magic : bytes := [x25; x50; x44; x46].
Definition PNG_magic : bytes := [x89; x50; x4e; x47].
Definition JPEG_magic : bytes := [xff; xd8; xff].

(** The [dict] returned by [get_file_info], with its four fixed keys. *)
Record FileInfo := {
  message : str;
  filename : str;
  file_type : str;
  file_size_kb : pyfloat
}.

Definition detect_file_type_try (file_base64 : str) : result str :=
  file_bytes <- decode_payload file_base64 ;;
  if startswith file_bytes PDF_magic then Return (u "PDF")
  else if startswith file_bytes PNG_magic then Return (u "PNG")
  else if startswith file_bytes JPEG_magic then Return (u "JPEG")
  else Return (u "UNKNOWN").

Definition detect_file_type (file_base64 : str) : str :=
  match detect_file_type_try file_base64 with
  | Return t => t
  | Raise _ => u "UNKNOWN"
  end.

Definition calculate_file_size_try (file_base64 : str) : result pyfloat :=
  file_bytes <- decode_payload file_base64 ;;
  let size_bytes := List.length file_bytes in
  let size_kb := (Z.of_nat size_bytes # 1024)%Q in
  Return (round2 size_kb).

Definition calculate_file_size (file_base64 : str) : pyfloat :=
  match calculate_file_size_try file_base64 with
  | Return kb => kb
  | Raise _ => 0%Q
  end.

(** [not filename] for an optional [str]: [None] and [""] are falsy. *)
Definition not_filename (filename : option str) : bool :=
  match filename with
  | None => true
  | Some [] => true
  | Some (_ :: _) => false
  end.

Definition get_file_info (file_base64 : str) (filename : option str)
  : FileInfo :=
  let file_type := detect_file_type file_base64 in
  let file_size_kb := calculate_file_size file_base64 in
  let filename :=
    if not_filename filename then
      let extension :=
        if negb (str_eqb file_type (u "UNKNOWN")) then lower file_type
        else u "bin" in
      u "archivo." ++ extension
    else match filename with Some f => f | None => [] end in
  {| message := u "Archivo recibido correctamente";
     filename := filename;
     file_type := file_type;
     file_size_kb := file_size_kb |}.

End FileInfoService.

(** ** Python objects and [json] *)

#[local] Set Warnings "-register-all".

(** The objects [json.loads] builds.  A [float] is kept as the literal it
    was read from; a [dict] keeps its entries in insertion order. *)
Inductive pyobj :=
| PyNone
| PyBool (b : bool)
| PyInt (z : Z)
| PyFloat (literal : str)
| PyStr (s : str)
| PyList (items : list pyobj)
| PyDict (entries : list (str * pyobj)).

(** [d[key] = value] on an insertion-ordered [dict]. *)
Fixpoint dict_setitem (key : str) (value : pyobj) (d : list (str * pyobj))
  : list (str * pyobj) :=
  match d with
  | [] => [(key, value)]
  | (k, v) :: d' =>
      if str_eqb k key then (k, value) :: d'
      else (k, v) :: dict_setitem key value d'
  end.

(** [dict(pairs)]. *)
Definition dict_of_pairs (pairs : list (str * pyobj)) : list (str * pyobj) :=
  fold_left (fun d kv => dict_setitem (fst kv) (snd kv) d) pairs [].

Fixpoint str_startswith (s prefix : str) : bool :=
  match prefix, s with
  | [], _ => true
  | p :: prefix', c :: s' => (c =? p) && str_startswith s' prefix'
  | _ :: _, [] => false
  end.

Fixpoint dropwhile (f : N -> bool) (s : str) : str :=
  match s with
  | [] => []
  | c :: t => if f c then dropwhile f t else s
  end.

(** [str.isspace] on one code point. *)
Definition isspace (c : N) : bool :=
  ((9 <=? c) && (c <=? 13)) || ((28 <=? c) && (c <=? 32))
  || (c =? 133) || (c =? 160) || (c =? 5760)
  || ((8192 <=? c) && (c <=? 8202))
  || (c =? 8232) || (c =? 8233) || (c =? 8239) || (c =? 8287)
  || (c =? 12288).

(** [s.strip()]. *)
Definition strip (s : str) : str :=
  rev (dropwhile isspace (rev (dropwhile isspace s))).

Module Json.

Definition quote : N := 34.
Definition backslash : N := 92.

(** Outcome of scanning one value: the value and the text after it,
    a syntax error, or recursion budget used up. *)
Inductive scan (A : Type) :=
| Scanned (v : A) (rest : str)
| Invalid
| Exhausted.
Arguments Scanned {A} v rest.
Arguments Invalid {A}.
Arguments Exhausted {A}.

(** [WHITESPACE] of [json.decoder]. *)
Definition is_ws (c : N) : bool :=
  (c =? 32) || (c =? 9) || (c =? 10) || (c =? 13).

Definition skip_ws (s : str) : str := dropwhile is_ws s.

Definition is_digit (c : N) : bool := (48 <=? c) && (c <=? 57).

Definition hex_digit (c : N) : option N :=
  if is_digit c then Some (c - 48)
  else if (97 <=? c) && (c <=? 102) then Some (c - 87)
  else if (65 <=? c) && (c <=? 70) then Some (c - 55)
  else None.

(** [_decode_uXXXX]. *)
Definition decode_uXXXX (h1 h2 h3 h4 : N) : option N :=
  match hex_digit h1, hex_digit h2, hex_digit h3, hex_digit h4 with
  | Some a, Some b, Some c, Some d => Some (((a * 16 + b) * 16 + c) * 16 + d)
  | _, _, _, _ => None
  end.

(** [BACKSLASH] of [json.decoder]. *)
Definition BACKSLASH (esc : N) : option N :=
  if esc =? quote then Some quote
  else if esc =? backslash then Some backslash
  else if esc =? ord "/" then Some (ord "/")
  else if esc =? ord "b" then Some 8
  else if esc =? ord "f" then Some 12
  else if esc =? ord "n" then Some 10
  else if esc =? ord "r" then Some 13
  else if esc =? ord "t" then Some 9
  else None.

(** [scanstring] in strict mode, entered after the opening quote;
    [chunks] holds the characters read so far, last first. *)
Fixpoint scanstring (s : str) (chunks : str) : option (str * str) :=
  match s with
  | [] => None
  | c :: t =>
      if c =? quote then Some (rev chunks, t)
      else if c =? backslash then
        match t with
        | [] => None
        | esc :: t1 =>
            if esc =? ord "u" then
              match t1 with
              | h1 :: h2 :: h3 :: h4 :: t2 =>
                  match decode_uXXXX h1 h2 h3 h4 with
                  | None => None
                  | Some uni =>
                      if (55296 <=? uni) && (uni <=? 56319) then
                        match t2 with
                        | b :: e :: g1 :: g2 :: g3 :: g4 :: t3 =>
                            if (b =? backslash) && (e =? ord "u") then
                              match decode_uXXXX g1 g2 g3 g4 with
                              | None => None
                              | Some uni2 =>
                                  if (56320 <=? uni2) && (uni2 <=? 57343) then
                                    scanstring t3
                                      (65536 + N.lor (N.shiftl (uni - 55296) 10)
                                                     (uni2 - 56320) :: chunks)
                                  else scanstring t2 (uni :: chunks)
                              end
                            else scanstring t2 (uni :: chunks)
                        | _ => scanstring t2 (uni :: chunks)
                        end
                      else scanstring t2 (uni :: chunks)
                  end
              | _ => None
              end
            else
              match BACKSLASH esc with
              | Some char => scanstring t1 (char :: chunks)
              | None => None
              end
        end
      else if c <? 32 then None
      else scanstring t (c :: chunks)
  end.

Fixpoint span_digits (s : str) : str * str :=
  match s with
  | [] => ([], [])
  | c :: t =>
      if is_digit c then let (ds, r) := span_digits t in (c :: ds, r)
      else ([], s)
  end.

(** [int(digits)] for a run of decimal digits. *)
Definition int_of_digits (digits : str) : Z :=
  fold_left (fun acc d => (acc * 10 + Z.of_N (d - 48))%Z) digits 0%Z.

(** The pieces of [NUMBER_RE].  Each returns what it matched and the
    text after it. *)

(** An optional sign character. *)
Definition sign_part (allowed : N -> bool) (s : str) : str * str :=
  match s with
  | c :: t => if allowed c then ([c], t) else ([], s)
  | [] => ([], s)
  end.

(** A single zero, or a non-zero digit followed by digits. *)
Definition integer_part (s : str) : option (str * str) :=
  match s with
  | d :: t =>
      if d =? 48 then Some ([d], t)
      else if is_digit d then
        let (more, r) := span_digits t in Some (d :: more, r)
      else None
  | [] => None
  end.

(** An optional fraction: a dot and at least one digit. *)
Definition frac_part (s : str) : str * str :=
  match s with
  | dot :: t =>
      if dot =? ord "." then
        match span_digits t with
        | ([], _) => ([], s)
        | (ds, r) => (dot :: ds, r)
        end
      else ([], s)
  | [] => ([], s)
  end.

(** An optional exponent: [e] or [E], an optional sign, at least one
    digit. *)
Definition exp_part (s : str) : str * str :=
  match s with
  | e :: t =>
      if (e =? ord "e") || (e =? ord "E") then
        let (esign, t') :=
          sign_part (fun c => (c =? ord "-") || (c =? ord "+")) t in
        match span_digits t' with
        | ([], _) => ([], s)
        | (ds, r) => (e :: esign ++ ds, r)
        end
      else ([], s)
  | [] => ([], s)
  end.

(** [NUMBER_RE.match] and the conversion of what it matched: an [int]
    when there is neither fraction nor exponent, a [float] otherwise. *)
Definition match_number (s : str) : option (pyobj * str) :=
  let (sign, s1) := sign_part (fun c => c =? ord "-") s in
  match integer_part s1 with
  | None => None
  | Some (digits, s2) =>
      let (frac, s3) := frac_part s2 in
      let (exp, s4) := exp_part s3 in
      match frac, exp with
      | [], [] =>
          let n := int_of_digits digits in
          Some (PyInt (match sign with [] => n | _ => (- n)%Z end), s4)
      | _, _ => Some (PyFloat (sign ++ digits ++ frac ++ exp), s4)
      end
  end.

Definition literal (s : str) (word : string) (v : pyobj) : option (pyobj * str) :=
  if str_startswith s (u word)
  then Some (v, skipn (String.length word) s)
  else None.

(** [scan_once], [JSONArray] and [JSONObject] of the [json] package,
    working on the text still to be read.  [depth] bounds the chain of
    calls; [loads] supplies enough of it for its argument. *)
Fixpoint scan_once (depth : nat) (s : str) {struct depth} : scan pyobj :=
  match depth with
  | O => Exhausted
  | S depth' =>
      match s with
      | [] => Invalid
      | nextchar :: t =>
          if nextchar =? quote then
            match scanstring t [] with
            | Some (text, rest) => Scanned (PyStr text) rest
            | None => Invalid
            end
          else if nextchar =? ord "{" then
            match skip_ws t with
            | c :: t' =>
                if c =? ord "}" then Scanned (PyDict []) t'
                else if c =? quote then JSONObject depth' t' []
                else Invalid
            | [] => Invalid
            end
          else if nextchar =? ord "[" then
            match skip_ws t with
            | c :: t' =>
                if c =? ord "]" then Scanned (PyList []) t'
                else JSONArray depth' (c :: t') []
            | [] => Invalid
            end
          else
            match literal s "null" PyNone with
            | Some (v, rest) => Scanned v rest
            | None =>
            match literal s "true" (PyBool true) with
            | Some (v, rest) => Scanned v rest
            | None =>
            match literal s "false" (PyBool false) with
            | Some (v, rest) => Scanned v rest
            | None =>
            match match_number s with
            | Some (v, rest) => Scanned v rest
            | None =>
            match literal s "NaN" (PyFloat (u "NaN")) with
            | Some (v, rest) => Scanned v rest
            | None =>
            match literal s "Infinity" (PyFloat (u "Infinity")) with
            | Some (v, rest) => Scanned v rest
            | None =>
            match literal s "-Infinity" (PyFloat (u "-Infinity")) with
            | Some (v, rest) => Scanned v rest
            | None => Invalid
            end end end end end end end
      end
  end

(** The [while True] loop of [JSONArray], entered at the next item. *)
with JSONArray (depth : nat) (s : str) (values : list pyobj) {struct depth}
  : scan pyobj :=
  match depth with
  | O => Exhausted
  | S depth' =>
      match scan_once depth' s with
      | Scanned value rest =>
          match skip_ws rest with
          | c :: t =>
              if c =? ord "]" then Scanned (PyList (values ++ [value])) t
              else if c =? comma then
                JSONArray depth' (skip_ws t) (values ++ [value])
              else Invalid
          | [] => Invalid
          end
      | Invalid => Invalid
      | Exhausted => Exhausted
      end
  end

(** The [while True] loop of [JSONObject], entered after the opening
    quote of the next key. *)
with JSONObject (depth : nat) (s : str) (pairs : list (str * pyobj))
       {struct depth} : scan pyobj :=
  match depth with
  | O => Exhausted
  | S depth' =>
      match scanstring s [] with
      | None => Invalid
      | Some (key, rest) =>
          match skip_ws rest with
          | colon :: t =>
              if colon =? ord ":" then
                match scan_once depth' (skip_ws t) with
                | Scanned value rest' =>
                    match skip_ws rest' with
                    | c :: t' =>
                        if c =? ord "}" then
                          Scanned (PyDict (dict_of_pairs (pairs ++ [(key, value)]))) t'
                        else if c =? comma then
                          match skip_ws t' with
                          | q :: t'' =>
                              if q =? quote then
                                JSONObject depth' t'' (pairs ++ [(key, value)])
                              else Invalid
                          | [] => Invalid
                          end
                        else Invalid
                    | [] => Invalid
                    end
                | Invalid => Invalid
                | Exhausted => Exhausted
                end
              else Invalid
          | [] => Invalid
          end
      end
  end.

(** [json.loads(s)] for a [str]: one value, surrounded by optional
    whitespace, and nothing else.  Only the grammar is modelled: the
    interpreter also raises [RecursionError] on deep nesting and
    [ValueError] on an integer literal of more than 4300 digits, which
    this definition does not. *)
Definition loads (s : str) : result pyobj :=
  if str_startswith s [65279] then Raise JSONDecodeError
  else
    match scan_once (S (2 * List.length s)) (skip_ws s) with
    | Scanned obj rest =>
        match skip_ws rest with
        | [] => Return obj
        | _ :: _ => Raise JSONDecodeError
        end
    | Invalid => Raise JSONDecodeError
    | Exhausted => Raise RecursionError
    end.

End Json.

(** ** [app/services/ai_service.py] *)

Module GeminiService.

(** What is sent to the model: [google.genai.types.Part] and
    [GenerateContentConfig], and the arguments of
    [models.generate_content]. *)
Inductive Part :=
| from_bytes (data : bytes) (mime_type : str)
| from_text (text : str).

Record GenerateContentConfig := {
  temperature : pyfloat;
  response_mime_type : str
}.

Record GenerateContentCall := {
  model : str;
  contents : list Part;
  config : GenerateContentConfig
}.

(** The reply: its [text] attribute can be [None]. *)
Record GenerateContentResponse := { text : option str }.

(** The service object: the configured model name and the client, whose
    call either raises or returns a response (possibly [None]). *)
Record GeminiService := {
  model_name : str;
  generate_content :
    GenerateContentCall -> result (option GenerateContentResponse)
}.

Definition newline : N := 10.
Definition indent : str := repeat 32 16%nat.

(** The f-string assigned to [full_prompt]. *)
Definition full_prompt (prompt : str) : str :=
  prompt ++ [newline]
  ++ indent ++ u "IMPORTANTE: Devuelve " ++ [218]
  ++ u "NICAMENTE un objeto JSON v" ++ [225]
  ++ u "lido con los campos solicitados. " ++ [newline]
  ++ indent ++ u "No incluyas explicaciones adicionales, solo el JSON."
  ++ [newline]
  ++ indent.

(** [response and response.text]: the text when there is a response
    whose text is neither [None] nor empty. *)
Definition response_text (response : option GenerateContentResponse)
  : option str :=
  match response with
  | Some {| text := Some (c :: t) |} => Some (c :: t)
  | _ => None
  end.

(** The tail of [process_image] that extracts and parses the response
    (from [if response and response.text:] to the last [return]). *)
Definition parse_response (response : option GenerateContentResponse)
  : result pyobj :=
  match response_text response with
  | Some response_text =>
      let result_text := strip response_text in
      match Json.loads result_text with
      | Return parsed => Return parsed
      | Raise JSONDecodeError =>
          Return (PyDict [(u "raw_response", PyStr result_text)])
      | Raise e => Raise e
      end
  | None =>
      Return (PyDict [(u "error", PyStr (u "No response from Gemini"))])
  end.

(** [process_image]; the second component lists the calls made to the
    model, after those in [calls].  The [except Exception] clause at
    the end of the method logs and re-raises, so an exception raised in
    the body is the outcome of the method. *)
Definition process_image (self : GeminiService)
           (image_base64 prompt mime_type : str)
           (calls : list GenerateContentCall)
  : result pyobj * list GenerateContentCall :=
  let file_type :=
    if str_eqb mime_type (u "application/pdf") then u "PDF"
    else u "imagen" in
  match decode_payload image_base64 with
  | Raise _ =>
      (Raise (ValueError (u "Invalid base64 " ++ file_type ++ u " data")),
       calls)
  | Return file_bytes =>
      let call :=
        {| model := model_name self;
           contents := [from_bytes file_bytes mime_type;
                        from_text (full_prompt prompt)];
           config := {| temperature := (1 # 10)%Q;
                        response_mime_type := u "application/json" |} |} in
      match generate_content self call with
      | Raise e => (Raise e, calls ++ [call])
      | Return response => (parse_response response, calls ++ [call])
      end
  end.

Definition default_mime_type : str := u "image/jpeg".

End GeminiService.

(** * Vocabulary of the statements *)

(** The numbers below [k], for statements checked by enumeration. *)
Definition below (k : nat) : list N := map N.of_nat (seq 0 k).

(** The four sextets of a group of three bytes, as [b2a_base64] computes
    them. *)
Module Sextets.

Definition s0 (a : N) := N.shiftr a 2.
Definition s1 (a b : N) := N.lor (N.shiftl (N.land a 3) 4) (N.shiftr b 4).
Definition s2 (b c : N) := N.lor (N.shiftl (N.land b 15) 2) (N.shiftr c 6).
Definition s3 (c : N) := N.land c 63.

(** Bit-level facts about the sextets of one group and the bytes the
    decoder rebuilds from them, as a check on a pair of byte values. *)
Definition sextets_check (x y : N) : bool :=
  (s0 x <? 64) && (s1 x y <? 64) && (s2 x y <? 64) && (s3 x <? 64)
  && (N.shiftl (N.land x 3) 4 <? 64) && (N.shiftl (N.land x 15) 2 <? 64)
  && (N.land (N.lor (N.shiftl (s0 x) 2) (N.shiftr (s1 x y) 4)) 255 =? x)
  && (N.land (N.lor (N.shiftl (s0 x) 2)
                    (N.shiftr (N.shiftl (N.land x 3) 4) 4)) 255 =? x)
  && (N.land (s1 x y) 15 =? N.shiftr y 4)
  && (N.land (N.lor (N.shiftl (N.shiftr x 4) 4) (N.shiftr (s2 x y) 2)) 255 =? x)
  && (N.land (N.lor (N.shiftl (N.shiftr x 4) 4)
                    (N.shiftr (N.shiftl (N.land x 15) 2) 2)) 255 =? x)
  && (N.land (s2 x y) 3 =? N.shiftr y 6)
  && (N.land (N.lor (N.shiftl (N.shiftr x 6) 6) (s3 x)) 255 =? x).

End Sextets.

(** What stands before the first comma of a text, and what stands after
    it. *)
Fixpoint before_comma (s : str) : str :=
  match s with
  | [] => []
  | c :: t => if c =? comma then [] else c :: before_comma t
  end.

Fixpoint after_comma (s : str) : str :=
  match s with
  | [] => []
  | c :: t => if c =? comma then t else after_comma t
  end.

(** [data] begins with the signature [magic]. *)
Definition begins_with (data magic : bytes) : Prop :=
  exists rest, data = magic ++ rest.

(** The extension [get_file_info] derives from a detected type. *)
Definition extension_of (file_type : str) : str :=
  if str_eqb file_type (u "UNKNOWN") then u "bin" else lower file_type.

(** The kind of file [process_image] names in its messages. *)
Definition file_kind (mime_type : str) : str :=
  if str_eqb mime_type (u "application/pdf") then u "PDF" else u "imagen".

(** The error raised for a payload that does not decode: a [ValueError]
    saying that the base64 data of the file kind is invalid. *)
Definition InvalidEncodingError (e : exn) : Prop :=
  exists kind, e = ValueError (u "Invalid base64 " ++ kind ++ u " data").

(** A reply of the model with the given text. *)
Definition reply (t : str) : option GeminiService.GenerateContentResponse :=
  Some {| GeminiService.text := Some t |}.

(** A client that answers every call with the given text, and one that
    answers with an empty JSON object. *)
Definition answering_with (t : str) : GeminiService.GeminiService :=
  {| GeminiService.model_name := u "gemini";
     GeminiService.generate_content := fun _ => Return (reply t) |}.

Definition answering : GeminiService.GeminiService := answering_with (u "{}").

(** Inputs of the scenarios. *)
Definition lo_siento : str := u "Lo siento, no puedo procesar esto".
Definition numero_documento : str :=
  u "{" ++ [Json.quote] ++ u "numero_documento" ++ [Json.quote] ++ u ":"
  ++ [Json.quote] ++ u "123" ++ [Json.quote] ++ u "}".
Definition pdf_1_4 : bytes := [x25; x50; x44; x46; x2d; x31; x2e; x34].
Definition pdf_1_4_payload : str := u "JVBERi0xLjQ=".
Definition two_commas : str := u "x,QUJD,REVG".
Definition ABC : bytes := [x41; x42; x43].
Definition ABCDEF : bytes := [x41; x42; x43; x44; x45; x46].

(** The number of hundredths of a kilobyte [round(size_bytes / 1024, 2)]
    stands for. *)
Definition hundredths (size_bytes : Z) : Z :=
  let num := (100 * size_bytes)%Z in
  let q := (num / 1024)%Z in
  let r := (num mod 1024)%Z in
  if (2 * r <? 1024)%Z then q
  else if (1024 <? 2 * r)%Z then (q + 1)%Z
  else if Z.even q then q else (q + 1)%Z.

(** An ASCII character outside the base64 alphabet; [skipped] leaves
    out the padding character as well. *)
Definition outside_alphabet (c : N) : bool :=
  (c <? 128) && (64 <=? Base64.table_a2b_base64 c).

Definition skipped (c : N) : bool :=
  outside_alphabet c && negb (c =? Base64.BASE64_PAD).

(** The call [process_image] makes to the model for the given bytes. *)
Definition model_call (self : GeminiService.GeminiService)
           (file_bytes : bytes) (prompt mime_type : str)
  : GeminiService.GenerateContentCall :=
  {| GeminiService.model := GeminiService.model_name self;
     GeminiService.contents :=
       [GeminiService.from_bytes file_bytes mime_type;
        GeminiService.from_text (GeminiService.full_prompt prompt)];
     GeminiService.config :=
       {| GeminiService.temperature := (1 # 10)%Q;
          GeminiService.response_mime_type := u "application/json" |} |}.

(** A character of the base64 alphabet, or the padding character. *)
Definition alphabet_or_pad (c : N) : bool :=
  (Base64.table_a2b_base64 c <? 64) || (c =? Base64.BASE64_PAD).

(** The text of a payload with at most one comma that is decoded: the
    whole payload, or what stands after its comma. *)
Definition decodable_segment (payload : str) : str :=
  if contains comma payload then after_comma payload else payload.

(** The number of characters of the base64 alphabet in a text. *)
Definition alphabet_count (s : str) : nat :=
  List.length (filter (fun c => Base64.table_a2b_base64 c <? 64) s).

(** Valid encoded text: the encoded form of some byte sequence. *)
Definition encoded_text (s : str) : Prop :=
  exists data, s = encode_image_to_base64 data.

(** A text that is not base64. *)
Definition not_base64 : str := u "this is not base64 at all!!".

(** * Properties *)

(** ** Checking a bounded statement by enumeration *)

Lemma below_complete (k : nat) (n : N) : n < N.of_nat k -> In n (below k).
Proof.
  intros H. unfold below.
  replace n with (N.of_nat (N.to_nat n)) by apply N2Nat.id.
  apply in_map, in_seq. lia.
Qed.

Lemma checked_below (P : N -> N -> bool) (j k : nat) :
  forallb (fun a => forallb (P a) (below k)) (below j) = true ->
  forall a b, a < N.of_nat j -> b < N.of_nat k -> P a b = true.
Proof.
  intros H a b Ha Hb.
  rewrite forallb_forall in H.
  specialize (H a (below_complete j a Ha)).
  rewrite forallb_forall in H.
  exact (H b (below_complete k b Hb)).
Qed.

Lemma byte_below (b : byte) : Byte.to_N b < N.of_nat 256.
Proof. pose proof (Byte.to_N_bounded b). lia. Qed.

(** ** Base64: decoding undoes encoding *)

Module Base64Facts.
Import Base64 Sextets.

Lemma b2a_ascii (n : N) : (b2a n <? 128) = true.
Proof.
  unfold b2a.
  destruct (nth_in_or_default (N.to_nat n) table_b2a_base64 0) as [H | ->];
    [| reflexivity].
  revert H. generalize (nth (N.to_nat n) table_b2a_base64 0). intros c H.
  assert (A : forallb (fun c => c <? 128) table_b2a_base64 = true)
    by (vm_compute; reflexivity).
  rewrite forallb_forall in A. exact (A c H).
Qed.

Lemma b2a_not_pad_or_comma (n : N) :
  (b2a n =? BASE64_PAD) = false /\ (b2a n =? comma) = false.
Proof.
  unfold b2a.
  destruct (nth_in_or_default (N.to_nat n) table_b2a_base64 0) as [H | ->];
    [| split; reflexivity].
  revert H. generalize (nth (N.to_nat n) table_b2a_base64 0). intros c H.
  assert (A : forallb (fun c => negb (c =? BASE64_PAD) && negb (c =? comma))
                table_b2a_base64 = true)
    by (vm_compute; reflexivity).
  rewrite forallb_forall in A. specialize (A c H).
  apply andb_prop in A. destruct A as [A1 A2].
  split; apply negb_true_iff; assumption.
Qed.

Lemma a2b_b2a (n : N) : n < 64 ->
  table_a2b_base64 (b2a n) = n /\ (64 <=? n) = false.
Proof.
  intros H.
  assert (A : (table_a2b_base64 (b2a n) =? n) && negb (64 <=? n) = true).
  { refine (checked_below (fun n _ => (table_a2b_base64 (b2a n) =? n)
                                      && negb (64 <=? n)) 64 1 _ n 0 H _);
      [vm_compute; reflexivity | reflexivity]. }
  apply andb_prop in A. destruct A as [A1 A2].
  split; [apply N.eqb_eq, A1 | apply negb_true_iff, A2].
Qed.

(** One alphabet character read in each of the four positions. *)
Section Steps.
Variables (n : N) (rest : list N) (leftchar pads : N) (out : bytes).
Hypothesis Hn : n < 64.

Lemma step0 :
  a2b_loop (b2a n :: rest) 0 leftchar pads out = a2b_loop rest 1 n 0 out.
Proof.
  cbn [a2b_loop].
  destruct (b2a_not_pad_or_comma n) as [-> _].
  destruct (a2b_b2a n Hn) as [-> ->]. reflexivity.
Qed.

Lemma step1 :
  a2b_loop (b2a n :: rest) 1 leftchar pads out =
  a2b_loop rest 2 (N.land n 15) 0
    (out ++ [to_byte (N.lor (N.shiftl leftchar 2) (N.shiftr n 4))]).
Proof.
  cbn [a2b_loop].
  destruct (b2a_not_pad_or_comma n) as [-> _].
  destruct (a2b_b2a n Hn) as [-> ->]. reflexivity.
Qed.

Lemma step2 :
  a2b_loop (b2a n :: rest) 2 leftchar pads out =
  a2b_loop rest 3 (N.land n 3) 0
    (out ++ [to_byte (N.lor (N.shiftl leftchar 4) (N.shiftr n 2))]).
Proof.
  cbn [a2b_loop].
  destruct (b2a_not_pad_or_comma n) as [-> _].
  destruct (a2b_b2a n Hn) as [-> ->]. reflexivity.
Qed.

Lemma step3 :
  a2b_loop (b2a n :: rest) 3 leftchar pads out =
  a2b_loop rest 0 0 0
    (out ++ [to_byte (N.lor (N.shiftl leftchar 6) n)]).
Proof.
  cbn [a2b_loop].
  destruct (b2a_not_pad_or_comma n) as [-> _].
  destruct (a2b_b2a n Hn) as [-> ->]. reflexivity.
Qed.
End Steps.

Lemma sextets_checked (x y : N) :
  x < 256 -> y < 256 -> sextets_check x y = true.
Proof.
  intros Hx Hy.
  refine (checked_below sextets_check 256 256 _ x y Hx Hy).
  vm_compute. reflexivity.
Qed.

Ltac sextet_fact x y :=
  let H := fresh in
  pose proof (sextets_checked (Byte.to_N x) (Byte.to_N y)
                (byte_below x) (byte_below y)) as H;
  unfold sextets_check in H;
  repeat (apply andb_prop in H; destruct H as [H ?]);
  first [ apply N.ltb_lt; assumption | apply N.eqb_eq; assumption ].

Section SextetFacts.
Variables a b : byte.
Let A := Byte.to_N a.
Let B := Byte.to_N b.

Lemma s0_lt : s0 A < 64. Proof. sextet_fact a a. Qed.
Lemma s1_lt : s1 A B < 64. Proof. sextet_fact a b. Qed.
Lemma s2_lt : s2 A B < 64. Proof. sextet_fact a b. Qed.
Lemma s3_lt : s3 A < 64. Proof. sextet_fact a a. Qed.
Lemma s1_last_lt : N.shiftl (N.land A 3) 4 < 64.
Proof. sextet_fact a a. Qed.
Lemma s2_last_lt : N.shiftl (N.land A 15) 2 < 64.
Proof. sextet_fact a a. Qed.

Lemma byte1 :
  N.land (N.lor (N.shiftl (s0 A) 2) (N.shiftr (s1 A B) 4)) 255 = A.
Proof. sextet_fact a b. Qed.
Lemma byte1_last :
  N.land (N.lor (N.shiftl (s0 A) 2)
                (N.shiftr (N.shiftl (N.land A 3) 4) 4)) 255 = A.
Proof. sextet_fact a a. Qed.
Lemma left1 : N.land (s1 A B) 15 = N.shiftr B 4.
Proof. sextet_fact a b. Qed.
Lemma byte2 :
  N.land (N.lor (N.shiftl (N.shiftr A 4) 4) (N.shiftr (s2 A B) 2)) 255 = A.
Proof. sextet_fact a b. Qed.
Lemma byte2_last :
  N.land (N.lor (N.shiftl (N.shiftr A 4) 4)
                (N.shiftr (N.shiftl (N.land A 15) 2) 2)) 255 = A.
Proof. sextet_fact a a. Qed.
Lemma left2 : N.land (s2 A B) 3 = N.shiftr B 6.
Proof. sextet_fact a b. Qed.
Lemma byte3 :
  N.land (N.lor (N.shiftl (N.shiftr A 6) 6) (s3 A)) 255 = A.
Proof. sextet_fact a a. Qed.
End SextetFacts.

Lemma to_byte_of (x : N) (b : byte) :
  N.land x 255 = Byte.to_N b -> to_byte x = b.
Proof. intros H. unfold to_byte. rewrite H, Byte.of_to_N. reflexivity. Qed.

(** Reading the four characters of a full group writes its three
    bytes and returns the loop to its initial position. *)
Lemma a2b_group (a b c : byte) (rest : list N) (pads : N) (out : bytes) :
  a2b_loop (b2a_base64 (a :: b :: c :: []) ++ rest) 0 0 pads out =
  a2b_loop rest 0 0 0 (out ++ [a; b; c]).
Proof.
  change (b2a_base64 [a; b; c] ++ rest)
    with (b2a (s0 (Byte.to_N a)) :: b2a (s1 (Byte.to_N a) (Byte.to_N b))
          :: b2a (s2 (Byte.to_N b) (Byte.to_N c)) :: b2a (s3 (Byte.to_N c))
          :: rest).
  rewrite step0 by apply s0_lt.
  rewrite step1 by apply s1_lt.
  rewrite step2 by apply s2_lt.
  rewrite step3 by apply s3_lt.
  rewrite (to_byte_of _ a) by apply byte1.
  rewrite left1, (to_byte_of _ b) by apply byte2.
  rewrite left2, (to_byte_of _ c) by apply byte3.
  rewrite <- !app_assoc. reflexivity.
Qed.

Lemma bytes_ind3 (P : bytes -> Prop) :
  P [] -> (forall a, P [a]) -> (forall a b, P [a; b]) ->
  (forall a b c l, P l -> P (a :: b :: c :: l)) ->
  forall l, P l.
Proof.
  intros H0 H1 H2 H3 l.
  assert (A : forall n l, (List.length l <= n)%nat -> P l).
  { clear l. induction n as [| n IH]; intros l Hl.
    - destruct l; [exact H0 | simpl in Hl; lia].
    - destruct l as [| a [| b [| c l]]]; auto.
      apply H3, IH. simpl in Hl. lia. }
  exact (A (List.length l) l (le_n _)).
Qed.

Lemma b2a_base64_group (a b c : byte) (l : bytes) :
  b2a_base64 (a :: b :: c :: l) = b2a_base64 [a; b; c] ++ b2a_base64 l.
Proof. reflexivity. Qed.

Lemma a2b_loop_b2a (data : bytes) : forall pads out,
  a2b_loop (b2a_base64 data) 0 0 pads out = Return (out ++ data).
Proof.
  induction data as [| a | a b | a b c l IH] using bytes_ind3; intros pads out.
  - rewrite app_nil_r. reflexivity.
  - change (b2a_base64 [a])
      with [b2a (s0 (Byte.to_N a));
            b2a (N.shiftl (N.land (Byte.to_N a) 3) 4);
            BASE64_PAD; BASE64_PAD].
    rewrite step0 by apply s0_lt.
    rewrite step1 by apply s1_last_lt.
    rewrite (to_byte_of _ a) by apply byte1_last.
    reflexivity.
  - change (b2a_base64 [a; b])
      with [b2a (s0 (Byte.to_N a));
            b2a (s1 (Byte.to_N a) (Byte.to_N b));
            b2a (N.shiftl (N.land (Byte.to_N b) 15) 2);
            BASE64_PAD].
    rewrite step0 by apply s0_lt.
    rewrite step1 by apply s1_lt.
    rewrite step2 by apply s2_last_lt.
    rewrite (to_byte_of _ a) by apply byte1.
    rewrite left1, (to_byte_of _ b) by apply byte2_last.
    rewrite <- app_assoc. reflexivity.
  - rewrite b2a_base64_group, a2b_group, IH, <- app_assoc. reflexivity.
Qed.

Lemma b2a_base64_chars (data : bytes) :
  forallb (fun c => c <? 128) (b2a_base64 data) = true
  /\ contains comma (b2a_base64 data) = false.
Proof.
  induction data as [| a | a b | a b c l IH] using bytes_ind3.
  - split; reflexivity.
  - split; cbn [b2a_base64 forallb contains existsb];
      rewrite ?b2a_ascii; try reflexivity;
      rewrite ?(N.eqb_sym comma), ?(proj2 (b2a_not_pad_or_comma _));
      reflexivity.
  - split; cbn [b2a_base64 forallb contains existsb];
      rewrite ?b2a_ascii; try reflexivity;
      rewrite ?(N.eqb_sym comma), ?(proj2 (b2a_not_pad_or_comma _));
      reflexivity.
  - destruct IH as [IH1 IH2].
    split; cbn [b2a_base64 forallb contains existsb].
    + rewrite !b2a_ascii. exact IH1.
    + rewrite ?(N.eqb_sym comma), !(proj2 (b2a_not_pad_or_comma _)).
      exact IH2.
Qed.

(** [base64.b64decode] is a left inverse of [base64.b64encode]. *)
Lemma b64decode_b64encode (data : bytes) :
  b64decode (b64encode data) = Return data.
Proof.
  unfold b64decode, b64encode, a2b_base64.
  rewrite (proj1 (b2a_base64_chars data)).
  apply (a2b_loop_b2a data 0 []).
Qed.

End Base64Facts.

(** ** [json.loads] returns or raises [JSONDecodeError] *)

Module JsonFacts.
Import Json.

Ltac break_in H :=
  repeat match type of H with
         | context [match ?x with _ => _ end] => destruct x eqn:?
         end.

Lemma dropwhile_length (f : N -> bool) (s : str) :
  (List.length (dropwhile f s) <= List.length s)%nat.
Proof.
  induction s as [| c t IH]; cbn [dropwhile]; [lia |].
  destruct (f c); cbn [List.length]; lia.
Qed.

Lemma skip_ws_length (s : str) :
  (List.length (skip_ws s) <= List.length s)%nat.
Proof. apply dropwhile_length. Qed.

Lemma skip_ws_cons (s t : str) (c : N) :
  skip_ws s = c :: t -> (List.length t < List.length s)%nat.
Proof.
  intros H. pose proof (skip_ws_length s) as L.
  rewrite H in L. cbn [List.length] in L. lia.
Qed.

Lemma scanstring_length (n : nat) : forall s chunks text rest,
  (List.length s <= n)%nat ->
  scanstring s chunks = Some (text, rest) ->
  (List.length rest < List.length s)%nat.
Proof.
  induction n as [| n IH]; intros s chunks text rest Hn H.
  - destruct s; [discriminate | cbn in Hn; lia].
  - destruct s as [| c t]; [discriminate |].
    cbn [scanstring] in H. cbn [List.length] in *.
    break_in H;
      try discriminate;
      try (injection H as _ <-; lia);
      try (apply IH in H; cbn [List.length] in *; lia).
Qed.

Lemma span_digits_app (s : str) : forall ds r,
  span_digits s = (ds, r) -> s = ds ++ r.
Proof.
  induction s as [| c t IH]; intros ds r H; cbn [span_digits] in H.
  - injection H as <- <-. reflexivity.
  - destruct (is_digit c).
    + destruct (span_digits t) as [ds' r'] eqn:E.
      injection H as <- <-. cbn [app]. rewrite <- (IH _ _ eq_refl).
      reflexivity.
    + injection H as <- <-. reflexivity.
Qed.

Lemma sign_part_app (allowed : N -> bool) (s l r : str) :
  sign_part allowed s = (l, r) -> s = l ++ r.
Proof.
  unfold sign_part. intros H. break_in H; injection H as <- <-; reflexivity.
Qed.

Lemma integer_part_app (s l r : str) :
  integer_part s = Some (l, r) -> s = l ++ r /\ l <> [].
Proof.
  unfold integer_part. intros H. break_in H; try discriminate;
    injection H as <- <-; (split; [| discriminate]); try reflexivity.
  cbn [app]. f_equal. match goal with
  | E : span_digits _ = _ |- _ => exact (span_digits_app _ _ _ E)
  end.
Qed.

Lemma frac_part_app (s l r : str) : frac_part s = (l, r) -> s = l ++ r.
Proof.
  unfold frac_part. intros H. break_in H; injection H as <- <-;
    try reflexivity.
  cbn [app]. f_equal. match goal with
  | E : span_digits _ = _ |- _ => exact (span_digits_app _ _ _ E)
  end.
Qed.

Lemma exp_part_app (s l r : str) : exp_part s = (l, r) -> s = l ++ r.
Proof.
  unfold exp_part. intros H. break_in H; injection H as <- <-;
    try reflexivity.
  cbn [app]. f_equal. rewrite <- app_assoc.
  match goal with
  | E : sign_part _ _ = _ |- _ => apply sign_part_app in E; rewrite E
  end.
  f_equal. match goal with
  | E : span_digits _ = _ |- _ => exact (span_digits_app _ _ _ E)
  end.
Qed.

Lemma match_number_length (s : str) (v : pyobj) (rest : str) :
  match_number s = Some (v, rest) ->
  (List.length rest < List.length s)%nat.
Proof.
  unfold match_number. intros H.
  destruct (sign_part _ s) as [sign s1] eqn:E1.
  destruct (integer_part s1) as [[digits s2] |] eqn:E2; [| discriminate].
  destruct (frac_part s2) as [frac s3] eqn:E3.
  destruct (exp_part s3) as [exp s4] eqn:E4.
  apply sign_part_app in E1. apply integer_part_app in E2.
  apply frac_part_app in E3. apply exp_part_app in E4.
  destruct E2 as [E2 Hd]. subst s s1 s2 s3.
  assert (rest = s4) as -> by (break_in H; congruence).
  rewrite !length_app. destruct digits; [contradiction |].
  cbn [List.length]. lia.
Qed.

Lemma str_startswith_length (s prefix : str) :
  str_startswith s prefix = true ->
  (List.length prefix <= List.length s)%nat.
Proof.
  revert s. induction prefix as [| p prefix IH]; intros s H.
  - cbn. lia.
  - destruct s as [| c s]; [discriminate |].
    cbn [str_startswith] in H. apply andb_prop in H. destruct H as [_ H].
    apply IH in H. cbn [List.length]. lia.
Qed.

Lemma literal_length (s : str) (word : string) (v w : pyobj) (rest : str) :
  word <> EmptyString ->
  literal s word v = Some (w, rest) ->
  (List.length rest < List.length s)%nat.
Proof.
  intros Hw H. unfold literal in H.
  destruct (str_startswith s (u word)) eqn:E; [| discriminate].
  injection H as _ <-. apply str_startswith_length in E.
  rewrite length_skipn.
  assert (List.length (u word) = String.length word) as L.
  { unfold u. rewrite length_map. clear. induction word; cbn; congruence. }
  destruct word; [contradiction |]. cbn [String.length] in *. lia.
Qed.

Ltac lengths :=
  repeat match goal with
         | E : skip_ws _ = _ :: _ |- _ => apply skip_ws_cons in E
         | E : scanstring _ _ = Some _ |- _ =>
             apply (scanstring_length _ _ _ _ _ (le_n _)) in E
         | E : match_number _ = Some _ |- _ => apply match_number_length in E
         | E : literal _ _ _ = Some _ |- _ =>
             apply literal_length in E; [| discriminate]
         | E : Scanned _ _ = Scanned _ _ |- _ => injection E as ? ?; subst
         end;
  repeat match goal with
         | |- context [skip_ws ?t] =>
             lazymatch goal with
             | _ : (List.length (skip_ws t) <= List.length t)%nat |- _ => fail
             | _ => pose proof (skip_ws_length t)
             end
         | _ : context [skip_ws ?t] |- _ =>
             lazymatch goal with
             | _ : (List.length (skip_ws t) <= List.length t)%nat |- _ => fail
             | _ => pose proof (skip_ws_length t)
             end
         end;
  cbn [List.length] in *.

(** A scanned value uses up at least one character. *)
Lemma scan_shorter (depth : nat) : forall s,
  (forall v r, scan_once depth s = Scanned v r ->
               (List.length r < List.length s)%nat)
  /\ (forall values v r, JSONArray depth s values = Scanned v r ->
                         (List.length r < List.length s)%nat)
  /\ (forall pairs v r, JSONObject depth s pairs = Scanned v r ->
                        (List.length r < List.length s)%nat).
Proof.
  induction depth as [| depth IH]; intros s.
  - repeat split; intros; discriminate.
  - pose proof (fun s => proj1 (IH s)) as IH1.
    pose proof (fun s => proj1 (proj2 (IH s))) as IH2.
    pose proof (fun s => proj2 (proj2 (IH s))) as IH3.
    clear IH. repeat split.
    + intros v r H. destruct s as [| c t]; [discriminate |].
      cbn [scan_once] in H. break_in H; try discriminate;
        try (apply IH2 in H); try (apply IH3 in H); lengths; lia.
    + intros values v r H. cbn [JSONArray] in H.
      break_in H; try discriminate;
        repeat match goal with
               | E : scan_once _ _ = Scanned _ _ |- _ => apply IH1 in E
               end;
        try (apply IH2 in H); lengths; lia.
    + intros pairs v r H. cbn [JSONObject] in H.
      break_in H; try discriminate;
        repeat match goal with
               | E : scan_once _ _ = Scanned _ _ |- _ => apply IH1 in E
               end;
        try (apply IH3 in H); lengths; lia.
Qed.

Ltac break_goal :=
  repeat match goal with
         | |- context [match ?x with _ => _ end] => destruct x eqn:?
         end.

(** The recursion budget [loads] passes is never used up. *)
Lemma scan_enough (depth : nat) : forall s,
  ((2 * List.length s < depth)%nat -> scan_once depth s <> Exhausted)
  /\ ((2 * List.length s + 1 < depth)%nat ->
      forall values, JSONArray depth s values <> Exhausted)
  /\ ((2 * List.length s + 1 < depth)%nat ->
      forall pairs, JSONObject depth s pairs <> Exhausted).
Proof.
  induction depth as [| depth IH]; intros s.
  - repeat split; intros; lia.
  - pose proof (fun s => proj1 (IH s)) as IH1.
    pose proof (fun s => proj1 (proj2 (IH s))) as IH2.
    pose proof (fun s => proj2 (proj2 (IH s))) as IH3.
    clear IH. repeat split.
    + intros Hd. destruct s as [| c t]; [discriminate |].
      cbn [scan_once]. break_goal; try discriminate;
        [apply IH3 | apply IH2]; lengths; lia.
    + intros Hd values. cbn [JSONArray].
      destruct (scan_once depth s) as [value rest | |] eqn:E.
      * apply (proj1 (scan_shorter depth s)) in E.
        break_goal; try discriminate. apply IH2. lengths. lia.
      * discriminate.
      * exfalso. apply (IH1 s); [lia | exact E].
    + intros Hd pairs. cbn [JSONObject].
      destruct (scanstring s []) as [[key rest] |] eqn:Ek; [| discriminate].
      destruct (skip_ws rest) as [| colon t] eqn:Ec; [discriminate |].
      destruct (colon =? ord ":"); [| discriminate].
      destruct (scan_once depth (skip_ws t)) as [value rest' | |] eqn:E.
      * apply (proj1 (scan_shorter depth _)) in E.
        break_goal; try discriminate. apply IH3. lengths. lia.
      * discriminate.
      * exfalso. apply (IH1 (skip_ws t)); [lengths; lia | exact E].
Qed.

Lemma loads_not_exhausted (s : str) : Json.loads s <> Raise RecursionError.
Proof.
  unfold Json.loads.
  destruct (str_startswith s [65279]); [discriminate |].
  destruct (scan_once _ _) eqn:E.
  - destruct (skip_ws rest); discriminate.
  - discriminate.
  - exfalso. revert E. apply scan_enough.
    pose proof (skip_ws_length s). lia.
Qed.

(** The recursion budget is never what decides the outcome of [loads]:
    it returns an object or reports a syntax error. *)
Lemma loads_outcomes (s : str) :
  (exists obj, Json.loads s = Return obj) \/ Json.loads s = Raise JSONDecodeError.
Proof.
  pose proof (loads_not_exhausted s) as H. unfold Json.loads in *.
  destruct (str_startswith s [65279]); [right; reflexivity |].
  destruct (scan_once _ _).
  - destruct (skip_ws rest); [left; eexists; reflexivity | right; reflexivity].
  - right; reflexivity.
  - contradiction.
Qed.

End JsonFacts.

(** The values of JSON that are read, and some texts that are not
    JSON. *)
Example loads_values :
  Json.loads (u " [1, -2.5e3 , null,true, [], {}, 0.5, 1E+2, -12, 10] ")
  = Return (PyList [PyInt 1; PyFloat (u "-2.5e3"); PyNone; PyBool true;
                    PyList []; PyDict []; PyFloat (u "0.5");
                    PyFloat (u "1E+2"); PyInt (-12); PyInt 10]).
Proof. vm_compute. reflexivity. Qed.

Example loads_object :
  Json.loads numero_documento
  = Return (PyDict [(u "numero_documento", PyStr (u "123"))]).
Proof. vm_compute. reflexivity. Qed.

Example loads_rejects :
  Forall (fun s => Json.loads s = Raise JSONDecodeError)
    [u "-"; u "01"; u "1."; u "1e"; u "[1,]"; u "[1 2]"; u "{1:2}";
     u "nul"; u "{}{}"; []; lo_siento].
Proof. repeat constructor. Qed.

(** ** Payload decoding *)

Section Split.
Variable sep : N.

Lemma split_no_sep (s : str) :
  contains sep s = false -> split sep s = [s].
Proof.
  induction s as [| c t IH]; intros H; [reflexivity |].
  cbn [contains existsb] in H. apply orb_false_elim in H.
  destruct H as [Hc Ht]. cbn [split].
  rewrite N.eqb_sym, Hc. fold (contains sep t) in Ht.
  rewrite (IH Ht). reflexivity.
Qed.

Lemma split_first_sep (before after : str) :
  contains sep before = false ->
  split sep (before ++ sep :: after) = before :: split sep after.
Proof.
  induction before as [| c t IH]; intros H.
  - cbn [app split]. rewrite N.eqb_refl. reflexivity.
  - cbn [contains existsb] in H. apply orb_false_elim in H.
    destruct H as [Hc Ht]. fold (contains sep t) in Ht.
    cbn [app split]. rewrite N.eqb_sym, Hc, (IH Ht). reflexivity.
Qed.

Lemma contains_app (s t : str) :
  contains sep (s ++ t) = contains sep s || contains sep t.
Proof. apply existsb_app. Qed.
End Split.

Lemma split_head (s : str) :
  exists fs, split comma s = before_comma s :: fs.
Proof.
  induction s as [| c t [fs IH]]; [eexists; reflexivity |].
  cbn [split before_comma]. rewrite IH.
  destruct (c =? comma); eexists; reflexivity.
Qed.

(** When the payload has a comma, the field of index 1 is what stands
    between its first comma and the next one (or the end). *)
Lemma split_fields (s : str) :
  contains comma s = true ->
  exists fs, split comma s = before_comma s :: before_comma (after_comma s) :: fs.
Proof.
  induction s as [| c t IH]; intros H; [discriminate |].
  cbn [split before_comma after_comma].
  destruct (c =? comma) eqn:E.
  - destruct (split_head t) as [fs ->]. eexists; reflexivity.
  - cbn [contains existsb] in H. rewrite N.eqb_sym, E in H.
    destruct (IH H) as [fs ->]. eexists; reflexivity.
Qed.

Lemma payload_segment_total (file_base64 : str) :
  payload_segment file_base64 =
  Return (if contains comma file_base64
          then before_comma (after_comma file_base64)
          else file_base64).
Proof.
  unfold payload_segment.
  destruct (contains comma file_base64) eqn:E; [| reflexivity].
  destruct (split_fields file_base64 E) as [fs ->]. reflexivity.
Qed.

Lemma decode_payload_segment (file_base64 : str) :
  decode_payload file_base64 =
  Base64.b64decode (if contains comma file_base64
                    then before_comma (after_comma file_base64)
                    else file_base64).
Proof. unfold decode_payload. rewrite payload_segment_total. reflexivity. Qed.

Lemma payload_segment_prefixed (prefix encoded : str) :
  contains comma prefix = false -> contains comma encoded = false ->
  payload_segment (prefix ++ comma :: encoded) = Return encoded.
Proof.
  intros Hp He. unfold payload_segment.
  rewrite contains_app. cbn [contains existsb]. rewrite N.eqb_refl, orb_true_r.
  rewrite (split_first_sep comma prefix encoded Hp), (split_no_sep comma encoded He).
  reflexivity.
Qed.

Lemma startswith_begins (data magic : bytes) :
  startswith data magic = true <-> begins_with data magic.
Proof.
  revert data. induction magic as [| m magic IH]; intros data.
  - split; [intros _; exists data; reflexivity | destruct data; reflexivity].
  - destruct data as [| d data]; cbn [startswith].
    + split; [discriminate | intros [rest H]; discriminate].
    + rewrite andb_true_iff, IH. split.
      * intros [E [rest ->]]. apply Byte.byte_dec_bl in E. subst d.
        exists rest. reflexivity.
      * intros [rest H]. injection H as -> ->.
        split; [apply Byte.byte_dec_lb; reflexivity | exists rest; reflexivity].
Qed.

Lemma startswith_not_begins (data magic : bytes) :
  startswith data magic = false <-> ~ begins_with data magic.
Proof.
  rewrite <- startswith_begins. destruct (startswith data magic); split;
    congruence.
Qed.

Lemma decode_payload_encoded (data : bytes) :
  decode_payload (encode_image_to_base64 data) = Return data.
Proof.
  rewrite decode_payload_segment.
  unfold encode_image_to_base64, Base64.b64encode.
  rewrite (proj2 (Base64Facts.b2a_base64_chars data)).
  apply Base64Facts.b64decode_b64encode.
Qed.

(** ** The file-information service *)

Module FileInfoFacts.
Import FileInfoService.

Section Decoded.
Variables (payload : str) (data : bytes).
Hypothesis decoded : decode_payload payload = Return data.

Lemma detect_decoded :
  detect_file_type payload =
  if startswith data PDF_magic then u "PDF"
  else if startswith data PNG_magic then u "PNG"
  else if startswith data JPEG_magic then u "JPEG"
  else u "UNKNOWN".
Proof.
  unfold detect_file_type, detect_file_type_try.
  rewrite decoded. cbn [bind].
  destruct (startswith data PDF_magic); [reflexivity |].
  destruct (startswith data PNG_magic); [reflexivity |].
  destruct (startswith data JPEG_magic); reflexivity.
Qed.

Lemma detect_pdf :
  begins_with data PDF_magic -> detect_file_type payload = u "PDF".
Proof.
  intros H. apply startswith_begins in H.
  rewrite detect_decoded, H. reflexivity.
Qed.
End Decoded.

Lemma detect_undecodable (payload : str) (e : exn) :
  decode_payload payload = Raise e -> detect_file_type payload = u "UNKNOWN".
Proof.
  intros H. unfold detect_file_type, detect_file_type_try.
  rewrite H. reflexivity.
Qed.

(** C4. For every payload, [detect_file_type] classifies the bytes the
    payload decodes to by their signature, in priority order: PDF when
    they begin with [%PDF], else PNG when they begin with [\x89PNG],
    else JPEG when they begin with [\xff\xd8\xff], else UNKNOWN.  Every
    byte sequence is the decoding of some payload.  A payload that does
    not decode, and the empty one, give UNKNOWN.  The function is
    total, so nothing is raised. *)
Theorem detect_file_type_signatures :
  (forall payload data,
      decode_payload payload = Return data ->
      (begins_with data PDF_magic ->
       detect_file_type payload = u "PDF")
      /\ (~ begins_with data PDF_magic -> begins_with data PNG_magic ->
          detect_file_type payload = u "PNG")
      /\ (~ begins_with data PDF_magic -> ~ begins_with data PNG_magic ->
          begins_with data JPEG_magic ->
          detect_file_type payload = u "JPEG")
      /\ (~ begins_with data PDF_magic -> ~ begins_with data PNG_magic ->
          ~ begins_with data JPEG_magic ->
          detect_file_type payload = u "UNKNOWN"))
  /\ (forall data, decode_payload (encode_image_to_base64 data) = Return data)
  /\ (forall payload e,
         decode_payload payload = Raise e ->
         detect_file_type payload = u "UNKNOWN")
  /\ (forall payload,
         decode_payload payload = Return [] ->
         detect_file_type payload = u "UNKNOWN")
  /\ decode_payload [] = Return []
  /\ detect_file_type [] = u "UNKNOWN".
Proof.
  split; [| split; [| split; [| split; [| split]]]].
  - intros payload data H. rewrite (detect_decoded payload data H).
    repeat split.
    + intros H1. apply startswith_begins in H1. rewrite H1. reflexivity.
    + intros H1 H2. apply startswith_not_begins in H1.
      apply startswith_begins in H2. rewrite H1, H2. reflexivity.
    + intros H1 H2 H3. apply startswith_not_begins in H1, H2.
      apply startswith_begins in H3. rewrite H1, H2, H3. reflexivity.
    + intros H1 H2 H3. apply startswith_not_begins in H1, H2, H3.
      rewrite H1, H2, H3. reflexivity.
  - exact decode_payload_encoded.
  - exact detect_undecodable.
  - intros payload H. rewrite (detect_decoded payload [] H). reflexivity.
  - reflexivity.
  - reflexivity.
Qed.

Lemma pdf_1_4_decoded : decode_payload pdf_1_4_payload = Return pdf_1_4.
Proof. reflexivity. Qed.

Lemma pdf_1_4_begins : begins_with pdf_1_4 PDF_magic.
Proof. exists [x2d; x31; x2e; x34]. reflexivity. Qed.

Lemma detect_file_type_signatures_witness :
  decode_payload pdf_1_4_payload = Return pdf_1_4
  /\ begins_with pdf_1_4 PDF_magic
  /\ detect_file_type pdf_1_4_payload = u "PDF".
Proof.
  split; [exact pdf_1_4_decoded | split; [exact pdf_1_4_begins |]].
  exact (proj1 (proj1 detect_file_type_signatures _ _ pdf_1_4_decoded)
           pdf_1_4_begins).
Defined.

Lemma detect_file_type_names (payload : str) :
  In (detect_file_type payload) [u "PDF"; u "PNG"; u "JPEG"; u "UNKNOWN"].
Proof.
  unfold detect_file_type, detect_file_type_try.
  destruct (decode_payload payload) as [data | e]; cbn [bind].
  - destruct (startswith data PDF_magic); [left; reflexivity |].
    destruct (startswith data PNG_magic); [right; left; reflexivity |].
    destruct (startswith data JPEG_magic); [right; right; left; reflexivity |].
    right; right; right; left; reflexivity.
  - right; right; right; left; reflexivity.
Qed.

Lemma default_filename (payload : str) (filename_arg : option str) :
  not_filename filename_arg = true ->
  filename (get_file_info payload filename_arg)
  = u "archivo." ++ extension_of (detect_file_type payload).
Proof.
  intros H. unfold get_file_info, extension_of. rewrite H.
  cbn [filename].
  destruct (str_eqb (detect_file_type payload) (u "UNKNOWN")); reflexivity.
Qed.

(** C5, as the code has it. When no filename is supplied,
    [get_file_info] names the file ["archivo.<extension>"], where the
    extension is the lower-cased detected type, or ["bin"] when the
    type is UNKNOWN (so one of [archivo.pdf], [archivo.png],
    [archivo.jpeg], [archivo.bin]); for a payload whose bytes begin
    with [%PDF] the type reported is PDF and the filename is
    ["archivo.pdf"]. *)
Theorem get_file_info_default_filename :
  (forall payload,
      filename (get_file_info payload None)
      = u "archivo." ++ extension_of (detect_file_type payload)
      /\ file_type (get_file_info payload None) = detect_file_type payload
      /\ In (filename (get_file_info payload None))
            [u "archivo.pdf"; u "archivo.png"; u "archivo.jpeg";
             u "archivo.bin"])
  /\ (forall payload data,
         decode_payload payload = Return data ->
         begins_with data PDF_magic ->
         file_type (get_file_info payload None) = u "PDF"
         /\ filename (get_file_info payload None) = u "archivo.pdf").
Proof.
  split.
  - intros payload. split; [| split].
    + apply default_filename. reflexivity.
    + reflexivity.
    + rewrite default_filename by reflexivity.
      destruct (detect_file_type_names payload) as [<- | [<- | [<- | [<- | []]]]];
        cbn; tauto.
  - intros payload data D B.
    rewrite default_filename by reflexivity.
    change (file_type (get_file_info payload None))
      with (detect_file_type payload).
    rewrite (detect_pdf payload data D B). split; reflexivity.
Qed.

Lemma get_file_info_default_filename_witness :
  file_type (get_file_info pdf_1_4_payload None) = u "PDF"
  /\ filename (get_file_info pdf_1_4_payload None) = u "archivo.pdf".
Proof.
  exact (proj2 get_file_info_default_filename pdf_1_4_payload pdf_1_4
           pdf_1_4_decoded pdf_1_4_begins).
Defined.

(** C5 as the specification words it: for the encoded bytes [%PDF-1.4]
    and no filename, the synthesized name is not ["file.pdf"]. *)
Lemma default_filename_is_not_file_pdf :
  decode_payload pdf_1_4_payload = Return pdf_1_4
  /\ begins_with pdf_1_4 PDF_magic
  /\ filename (get_file_info pdf_1_4_payload None) <> u "file.pdf".
Proof.
  split; [exact pdf_1_4_decoded | split; [exact pdf_1_4_begins |]].
  vm_compute. discriminate.
Qed.

(** C9. Whenever the segment of the payload that is decoded is
    rejected by the base64 decoder, [calculate_file_size] returns
    [0.0]; nothing is raised, the function being total. *)
Theorem calculate_file_size_undecodable (file_base64 segment : str) (e : exn) :
  payload_segment file_base64 = Return segment ->
  Base64.b64decode segment = Raise e ->
  calculate_file_size file_base64 = 0%Q.
Proof.
  intros Hs Hd.
  unfold calculate_file_size, calculate_file_size_try, decode_payload.
  rewrite Hs. cbn [bind]. rewrite Hd. reflexivity.
Qed.

Lemma calculate_file_size_undecodable_witness :
  calculate_file_size (u "data:image/png;base64,A") = 0%Q.
Proof.
  apply (calculate_file_size_undecodable
           (u "data:image/png;base64,A") (u "A")
           (BinasciiError (OneMoreThanMultipleOf4 1)));
    reflexivity.
Defined.

(** C10. An empty filename is treated as an absent one: both calls
    return the same record, whose filename is the synthesized
    default. *)
Theorem get_file_info_empty_filename (file_base64 : str) :
  get_file_info file_base64 (Some []) = get_file_info file_base64 None
  /\ filename (get_file_info file_base64 (Some []))
     = u "archivo." ++ extension_of (detect_file_type file_base64).
Proof.
  split; [reflexivity |].
  apply default_filename. reflexivity.
Qed.

End FileInfoFacts.

(** ** The transport decoder *)

Module DecoderFacts.

(** C6 at a payload with two commas. The code decodes only what stands
    between the first and the second comma, where the claim has it
    decode everything after the first comma. *)
Theorem decode_payload_two_commas :
  after_comma two_commas = u "QUJD,REVG"
  /\ Base64.b64decode (after_comma two_commas) = Return ABCDEF
  /\ payload_segment two_commas = Return (u "QUJD")
  /\ decode_payload two_commas = Return ABC.
Proof. repeat split. Qed.

(** The two parts of C6 the code does satisfy: a payload without a
    comma is decoded whole, and one with a single comma is decoded
    from after that comma. *)
Lemma decode_payload_no_comma (payload : str) :
  contains comma payload = false ->
  decode_payload payload = Base64.b64decode payload.
Proof. intros H. rewrite decode_payload_segment, H. reflexivity. Qed.

Lemma before_comma_no_comma (s : str) :
  contains comma s = false -> before_comma s = s.
Proof.
  induction s as [| c t IH]; [reflexivity |].
  cbn [contains existsb before_comma]. intros H.
  apply orb_false_elim in H. destruct H as [Hc Ht].
  rewrite N.eqb_sym, Hc, (IH Ht). reflexivity.
Qed.

Lemma decode_payload_one_comma (payload : str) :
  contains comma payload = true ->
  contains comma (after_comma payload) = false ->
  decode_payload payload = Base64.b64decode (after_comma payload).
Proof.
  intros H1 H2.
  rewrite decode_payload_segment, H1, (before_comma_no_comma _ H2).
  reflexivity.
Qed.

Lemma comma_split (payload : str) :
  contains comma payload = true ->
  payload = before_comma payload ++ comma :: after_comma payload
  /\ contains comma (before_comma payload) = false.
Proof.
  induction payload as [| c t IH]; [discriminate |].
  cbn [contains existsb before_comma after_comma]. intros H.
  destruct (c =? comma) eqn:E.
  - apply N.eqb_eq in E. subst c. split; reflexivity.
  - rewrite N.eqb_sym, E in H. destruct (IH H) as [IH1 IH2].
    cbn [app contains existsb]. rewrite N.eqb_sym, E.
    split; [f_equal; exact IH1 | exact IH2].
Qed.

(** C8. Decoding the encoded form of any byte sequence gives the
    sequence back, and so does decoding the encoded form behind a
    metadata prefix and the separating comma, the prefix being what
    stands before the first comma of the payload (it holds none
    itself): whatever stands before the first comma is ignored. *)
Theorem decode_payload_left_inverse (data : bytes) :
  decode_payload (encode_image_to_base64 data) = Return data
  /\ (forall prefix,
         contains comma prefix = false ->
         decode_payload (prefix ++ comma :: encode_image_to_base64 data)
         = Return data)
  /\ (forall payload,
         contains comma payload = true ->
         after_comma payload = encode_image_to_base64 data ->
         decode_payload payload = Return data).
Proof.
  assert (P : forall prefix,
             contains comma prefix = false ->
             decode_payload (prefix ++ comma :: encode_image_to_base64 data)
             = Return data).
  { intros prefix Hp. unfold decode_payload.
    rewrite payload_segment_prefixed.
    - apply Base64Facts.b64decode_b64encode.
    - exact Hp.
    - apply Base64Facts.b2a_base64_chars. }
  split; [apply decode_payload_encoded | split; [exact P |]].
  intros payload Hc Ha.
  destruct (comma_split payload Hc) as [E Hb].
  rewrite E, Ha. apply P, Hb.
Qed.

Lemma decode_payload_left_inverse_witness :
  decode_payload (u "data:application/pdf;base64,JVBERi0xLjQ=")
  = Return pdf_1_4.
Proof.
  exact (proj1 (proj2 (decode_payload_left_inverse pdf_1_4))
           (u "data:application/pdf;base64") eq_refl).
Defined.

End DecoderFacts.

(** ** The image-processing service *)

Module GeminiFacts.
Import GeminiService.

(** C1 at the reply [[1, 2]], which is valid JSON but not an object:
    the parsed list is returned as it is, by the tail and so by
    [process_image], and it is none of the three mappings. *)
Theorem parse_response_json_array :
  parse_response (reply (u "[1, 2]")) = Return (PyList [PyInt 1; PyInt 2])
  /\ fst (process_image (answering_with (u "[1, 2]")) pdf_1_4_payload
            (u "Extrae") (u "application/pdf") [])
     = Return (PyList [PyInt 1; PyInt 2])
  /\ (forall entries,
         parse_response (reply (u "[1, 2]")) <> Return (PyDict entries)).
Proof.
  assert (E : parse_response (reply (u "[1, 2]"))
              = Return (PyList [PyInt 1; PyInt 2]))
    by (vm_compute; reflexivity).
  split; [exact E | split; [vm_compute; reflexivity |]].
  intros entries. rewrite E. discriminate.
Qed.

Lemma parse_response_fallback (t : str) :
  t <> [] ->
  Json.loads (strip t) = Raise JSONDecodeError ->
  parse_response (reply t) = Return (PyDict [(u "raw_response", PyStr (strip t))]).
Proof.
  intros Ht Hl. unfold parse_response, reply, response_text.
  destruct t as [| c t]; [contradiction |].
  rewrite Hl. reflexivity.
Qed.

Lemma parse_response_parsed (t : str) (obj : pyobj) :
  t <> [] ->
  Json.loads (strip t) = Return obj ->
  parse_response (reply t) = Return obj.
Proof.
  intros Ht Hl. unfold parse_response, reply, response_text.
  destruct t as [| c t]; [contradiction |].
  rewrite Hl. reflexivity.
Qed.

(** Scenario B: a reply that is a JSON object is returned parsed. *)
Example parse_response_object :
  parse_response (reply numero_documento)
  = Return (PyDict [(u "numero_documento", PyStr (u "123"))]).
Proof. vm_compute. reflexivity. Qed.

(** C2, as the code has it. For every non-empty reply whose stripped
    text [json.loads] rejects with [JSONDecodeError], the result is the
    mapping whose single entry maps ["raw_response"] to the reply with
    its leading and trailing whitespace stripped; for the reply
    [Lo siento, no puedo procesar esto] it is
    [{"raw_response": "Lo siento, no puedo procesar esto"}]. *)
Theorem parse_response_raw_response :
  (forall t,
      t <> [] ->
      Json.loads (strip t) = Raise JSONDecodeError ->
      parse_response (reply t)
      = Return (PyDict [(u "raw_response", PyStr (strip t))]))
  /\ parse_response (reply lo_siento)
     = Return (PyDict [(u "raw_response", PyStr lo_siento)]).
Proof.
  split; [exact parse_response_fallback |].
  exact (parse_response_fallback lo_siento ltac:(discriminate) eq_refl).
Qed.

(** A reply that ends with a line break: the break is not kept. *)
Lemma parse_response_raw_response_witness :
  parse_response (reply (u " no puedo" ++ [10]))
  = Return (PyDict [(u "raw_response", PyStr (u "no puedo"))]).
Proof.
  exact (proj1 parse_response_raw_response (u " no puedo" ++ [10])
           ltac:(discriminate) eq_refl).
Defined.

(** C2 as the specification words it: the key is not ["rawResponse"]. *)
Lemma raw_response_key_differs :
  Json.loads lo_siento = Raise JSONDecodeError
  /\ parse_response (reply lo_siento)
     <> Return (PyDict [(u "rawResponse", PyStr lo_siento)]).
Proof. split; [reflexivity | vm_compute; discriminate]. Qed.

(** C3, as the code has it. When there is no response, or its text is
    [None] or empty, the result is
    [{"error": "No response from Gemini"}]. *)
Theorem parse_response_no_text :
  parse_response None
  = Return (PyDict [(u "error", PyStr (u "No response from Gemini"))])
  /\ parse_response (Some {| text := None |})
     = Return (PyDict [(u "error", PyStr (u "No response from Gemini"))])
  /\ parse_response (reply [])
     = Return (PyDict [(u "error", PyStr (u "No response from Gemini"))]).
Proof. repeat split. Qed.

(** C3 as the specification words it: the message is not
    ["No response from model"]. *)
Lemma no_response_message_differs :
  parse_response None
  <> Return (PyDict [(u "error", PyStr (u "No response from model"))]).
Proof. vm_compute. discriminate. Qed.

(** When the text handed to the decoder is rejected, [process_image]
    raises the invalid-encoding [ValueError] and the list of calls made
    to the model is left as it was. *)
Lemma process_image_undecodable
      (self : GeminiService.GeminiService)
      (image_base64 prompt mime_type : str) (e : exn)
      (calls : list GenerateContentCall) :
  decode_payload image_base64 = Raise e ->
  process_image self image_base64 prompt mime_type calls
  = (Raise (ValueError (u "Invalid base64 " ++ file_kind mime_type ++ u " data")),
     calls).
Proof. intros D. unfold process_image. rewrite D. reflexivity. Qed.

Lemma decode_payload_decodable_segment (payload : str) :
  contains comma (after_comma payload) = false ->
  decode_payload payload = Base64.b64decode (decodable_segment payload).
Proof.
  intros H. unfold decodable_segment.
  destruct (contains comma payload) eqn:E.
  - exact (DecoderFacts.decode_payload_one_comma payload E H).
  - exact (DecoderFacts.decode_payload_no_comma payload E).
Qed.

(** A text without padding whose alphabet characters do not fill whole
    groups of four leaves the decoder in the middle of a group: it
    raises. *)
Lemma a2b_loop_incomplete (s : str) : forall quad_pos leftchar pads out,
  quad_pos < 4 ->
  contains Base64.BASE64_PAD s = false ->
  ((N.to_nat quad_pos + alphabet_count s) mod 4 <> 0)%nat ->
  exists e, Base64.a2b_loop s quad_pos leftchar pads out = Raise e.
Proof.
  induction s as [| c t IH]; intros quad_pos leftchar pads out Hq Hp Hc;
    assert (Q : quad_pos = 0 \/ quad_pos = 1 \/ quad_pos = 2 \/ quad_pos = 3)
      by lia.
  - unfold alphabet_count in Hc. cbn [filter List.length] in Hc.
    destruct Q as [-> | [-> | [-> | ->]]];
      [exfalso; apply Hc; reflexivity | | |]; eexists; reflexivity.
  - cbn [contains existsb] in Hp. apply orb_false_elim in Hp.
    destruct Hp as [Hp Ht]. fold (contains Base64.BASE64_PAD t) in Ht.
    rewrite N.eqb_sym in Hp.
    unfold alphabet_count in Hc. cbn [filter] in Hc.
    cbn [Base64.a2b_loop]. rewrite Hp.
    destruct (Base64.table_a2b_base64 c <? 64) eqn:A.
    + apply N.ltb_lt in A.
      assert ((64 <=? Base64.table_a2b_base64 c) = false) as ->
        by (apply N.leb_gt; exact A).
      cbn [List.length] in Hc. fold (alphabet_count t) in Hc.
      destruct Q as [-> | [-> | [-> | ->]]]; cbn [N.eqb Pos.eqb];
        apply IH; try exact Ht; try lia.
      * change (N.to_nat 1) with 1%nat. change (N.to_nat 0) with 0%nat in Hc.
        replace (1 + alphabet_count t)%nat
          with (0 + S (alphabet_count t))%nat by lia.
        exact Hc.
      * change (N.to_nat 2) with 2%nat. change (N.to_nat 1) with 1%nat in Hc.
        replace (2 + alphabet_count t)%nat
          with (1 + S (alphabet_count t))%nat by lia.
        exact Hc.
      * change (N.to_nat 3) with 3%nat. change (N.to_nat 2) with 2%nat in Hc.
        replace (3 + alphabet_count t)%nat
          with (2 + S (alphabet_count t))%nat by lia.
        exact Hc.
      * change (N.to_nat 0) with 0%nat. change (N.to_nat 3) with 3%nat in Hc.
        replace (3 + S (alphabet_count t))%nat
          with (0 + alphabet_count t + 1 * 4)%nat in Hc by lia.
        rewrite Nat.Div0.mod_add in Hc. exact Hc.
    + apply N.ltb_ge in A. apply N.leb_le in A. rewrite A.
      fold (alphabet_count t) in Hc.
      apply IH; assumption.
Qed.

(** C7, as the code has it. For a payload with at most one comma, whose
    decodable segment is the whole payload or what stands after the
    comma: whenever the base64 decoder rejects the segment,
    [process_image] raises the invalid-encoding [ValueError] and the
    list of calls made to the model is left as it was, so the model is
    not called.  The decoder, run in its default mode, rejects a
    segment that holds a character that is not ASCII, and an ASCII
    segment without padding whose characters of the base64 alphabet do
    not come in a multiple of four; characters outside the alphabet do
    not make it reject a text. *)
Theorem process_image_rejected_segment
        (self : GeminiService.GeminiService)
        (image_base64 prompt mime_type : str)
        (calls : list GenerateContentCall) :
  contains comma (after_comma image_base64) = false ->
  let segment := decodable_segment image_base64 in
  let invalid :=
    ValueError (u "Invalid base64 " ++ file_kind mime_type ++ u " data") in
  let fails :=
    process_image self image_base64 prompt mime_type calls
    = (Raise invalid, calls) in
  InvalidEncodingError invalid
  /\ (forall e, Base64.b64decode segment = Raise e -> fails)
  /\ ((exists c, In c segment /\ 128 <= c) -> fails)
  /\ (forallb (fun c => c <? 128) segment = true ->
      contains Base64.BASE64_PAD segment = false ->
      (alphabet_count segment mod 4 <> 0)%nat ->
      fails).
Proof.
  intros H segment invalid fails. subst fails invalid.
  pose proof (decode_payload_decodable_segment image_base64 H) as D.
  fold segment in D.
  split; [eexists; reflexivity | split; [| split]].
  - intros e He. apply (process_image_undecodable _ _ _ _ e).
    rewrite D. exact He.
  - intros (c & Hin & Hc).
    apply (process_image_undecodable _ _ _ _
             (ValueError Base64.only_ascii_msg)).
    rewrite D. unfold Base64.b64decode.
    destruct (forallb (fun c => c <? 128) segment) eqn:E; [| reflexivity].
    rewrite forallb_forall in E. specialize (E c Hin).
    apply N.ltb_lt in E. lia.
  - intros Ha Hp Hc.
    destruct (a2b_loop_incomplete segment 0 0 0 [] ltac:(lia) Hp Hc)
      as [e He].
    apply (process_image_undecodable _ _ _ _ e).
    rewrite D. unfold Base64.b64decode, Base64.a2b_base64.
    rewrite Ha. exact He.
Qed.

Lemma process_image_rejected_segment_witness :
  process_image answering (u "data:image/png;base64,QUJDR") (u "Extrae")
    default_mime_type []
  = (Raise (ValueError (u "Invalid base64 imagen data")), []).
Proof.
  refine (proj2 (proj2 (proj2
            (process_image_rejected_segment answering
               (u "data:image/png;base64,QUJDR") (u "Extrae")
               default_mime_type [] eq_refl))) eq_refl eq_refl _).
  cbn. discriminate.
Defined.

(** C7 as the specification words it: the text [this is not base64 at
    all!!] is the encoded form of no byte sequence, and yet
    [process_image] does not fail on it: the decoder keeps its twenty
    alphabet characters and the model is called with the fifteen bytes
    they stand for. *)
Lemma lenient_decoding_calls_model :
  contains comma not_base64 = false
  /\ ~ encoded_text not_base64
  /\ exists file_bytes,
      List.length file_bytes = 15%nat
      /\ process_image answering not_base64 (u "Extrae") default_mime_type []
         = (Return (PyDict []),
            [model_call answering file_bytes (u "Extrae") default_mime_type]).
Proof.
  split; [reflexivity | split].
  - intros [data E].
    pose proof (decode_payload_encoded data) as D. rewrite <- E in D.
    vm_compute in D. injection D as <-.
    vm_compute in E. discriminate E.
  - eexists. split; [| vm_compute; reflexivity]. reflexivity.
Qed.

(** With a payload that decodes, the same client is called once. *)
Example process_image_calls_model :
  process_image answering (u "JVBERi0xLjQ=") (u "Extrae")
    (u "application/pdf") []
  = (Return (PyDict []),
     [ {| model := u "gemini";
          contents := [from_bytes pdf_1_4 (u "application/pdf");
                       from_text (full_prompt (u "Extrae"))];
          config := {| temperature := (1 # 10)%Q;
                       response_mime_type := u "application/json" |} |} ]).
Proof. reflexivity. Qed.

End GeminiFacts.

(** * Further properties of the services *)

(** ** What the payload decoder reads and what it ignores *)

Module DecoderExtras.

Lemma before_comma_comma_free (s : str) :
  contains comma (before_comma s) = false.
Proof.
  induction s as [| c t IH]; [reflexivity |].
  cbn [before_comma]. destruct (c =? comma) eqn:E; [reflexivity |].
  cbn [contains existsb]. rewrite N.eqb_sym, E. exact IH.
Qed.

Lemma before_comma_app (field rest : str) :
  contains comma field = false ->
  before_comma (field ++ comma :: rest) = field.
Proof.
  induction field as [| c t IH]; intros H.
  - cbn [app before_comma]. rewrite N.eqb_refl. reflexivity.
  - cbn [contains existsb] in H. apply orb_false_elim in H.
    destruct H as [Hc Ht]. cbn [app before_comma].
    rewrite N.eqb_sym, Hc, (IH Ht). reflexivity.
Qed.

Lemma after_comma_app (before rest : str) :
  contains comma before = false ->
  after_comma (before ++ comma :: rest) = rest.
Proof.
  induction before as [| c t IH]; intros H.
  - cbn [app after_comma]. rewrite N.eqb_refl. reflexivity.
  - cbn [contains existsb] in H. apply orb_false_elim in H.
    destruct H as [Hc Ht]. cbn [app after_comma].
    rewrite N.eqb_sym, Hc. exact (IH Ht).
Qed.

Lemma contains_comma_inserted (before rest : str) :
  contains comma (before ++ comma :: rest) = true.
Proof.
  rewrite contains_app. cbn [contains existsb].
  rewrite N.eqb_refl. apply orb_true_r.
Qed.

(** X1. The statement [file_base64.split(',')[1]] never raises
    [IndexError]: for every payload the text handed to [b64decode] is
    defined, holds no comma, and is the payload itself when the payload
    holds none. *)
Theorem payload_segment_comma_free (file_base64 : str) :
  exists segment,
    payload_segment file_base64 = Return segment
    /\ contains comma segment = false
    /\ (contains comma file_base64 = false -> segment = file_base64).
Proof.
  rewrite payload_segment_total.
  destruct (contains comma file_base64) eqn:E; eexists;
    (split; [reflexivity | split]).
  - apply before_comma_comma_free.
  - discriminate.
  - exact E.
  - reflexivity.
Qed.

Lemma payload_segment_comma_free_witness :
  exists segment,
    payload_segment (u "QUJD") = Return segment
    /\ contains comma segment = false
    /\ segment = u "QUJD".
Proof.
  destruct (payload_segment_comma_free (u "QUJD")) as (seg & H1 & H2 & H3).
  exists seg. split; [exact H1 | split; [exact H2 | exact (H3 eq_refl)]].
Defined.

(** X2. Only the field between the first and the second comma of a
    payload is decoded: what stands before the first comma, and what
    stands from the second comma on, have no influence on the result. *)
Theorem decode_payload_reads_second_field (before field rest : str) :
  contains comma before = false ->
  contains comma field = false ->
  decode_payload (before ++ comma :: field) = Base64.b64decode field
  /\ decode_payload (before ++ comma :: field ++ comma :: rest)
     = Base64.b64decode field.
Proof.
  intros Hb Hf. rewrite !decode_payload_segment, !contains_comma_inserted.
  rewrite !(after_comma_app before _ Hb).
  rewrite (DecoderFacts.before_comma_no_comma field Hf).
  rewrite (before_comma_app field rest Hf). split; reflexivity.
Qed.

Lemma decode_payload_reads_second_field_witness :
  decode_payload (u "data:x,QUJD") = Return ABC
  /\ decode_payload (u "data:x,QUJD,REVG") = Return ABC.
Proof.
  exact (decode_payload_reads_second_field (u "data:x") (u "QUJD") (u "REVG")
           eq_refl eq_refl).
Defined.

End DecoderExtras.

(** ** Further properties of the file-information service *)

Module FileInfoExtras.
Import FileInfoService.

Lemma get_file_info_by_decoding (p1 p2 : str) (filename_arg : option str) :
  decode_payload p1 = decode_payload p2 ->
  get_file_info p1 filename_arg = get_file_info p2 filename_arg.
Proof.
  intros H.
  unfold get_file_info, detect_file_type, detect_file_type_try,
    calculate_file_size, calculate_file_size_try.
  rewrite H. reflexivity.
Qed.

(** X3. A data-URL prefix changes nothing in the information reported:
    for a prefix and a body without commas, [get_file_info] returns the
    same record for [prefix,body] as for [body] alone, whatever the
    filename argument. *)
Theorem get_file_info_ignores_prefix
        (prefix body : str) (filename_arg : option str) :
  contains comma prefix = false ->
  contains comma body = false ->
  get_file_info (prefix ++ comma :: body) filename_arg
  = get_file_info body filename_arg.
Proof.
  intros Hp Hb. apply get_file_info_by_decoding.
  rewrite (DecoderFacts.decode_payload_no_comma body Hb).
  unfold decode_payload.
  rewrite (payload_segment_prefixed prefix body Hp Hb). reflexivity.
Qed.

Lemma get_file_info_ignores_prefix_witness :
  get_file_info (u "data:application/pdf;base64,JVBERi0xLjQ=") None
  = get_file_info (u "JVBERi0xLjQ=") None.
Proof.
  exact (get_file_info_ignores_prefix (u "data:application/pdf;base64")
           (u "JVBERi0xLjQ=") None eq_refl eq_refl).
Defined.

(** The three signatures start with different bytes. *)
Lemma signatures_exclusive (data : bytes) :
  (startswith data PDF_magic = true ->
   startswith data PNG_magic = false /\ startswith data JPEG_magic = false)
  /\ (startswith data PNG_magic = true ->
      startswith data JPEG_magic = false).
Proof.
  destruct data as [| d data]; [split; discriminate |].
  cbn [startswith PDF_magic PNG_magic JPEG_magic].
  split; intros H; apply andb_prop in H; destruct H as [H _];
    apply Byte.byte_dec_bl in H; subst d; repeat split.
Qed.

(** X4. A type other than UNKNOWN is reported exactly when the payload
    decodes to bytes that begin with the signature of that type: PDF,
    PNG and JPEG are never reported for bytes without their signature,
    nor for a payload that does not decode; UNKNOWN is reported in every
    other case. *)
Theorem detect_file_type_exact (payload : str) :
  (detect_file_type payload = u "PDF" <->
   exists data, decode_payload payload = Return data
                /\ begins_with data PDF_magic)
  /\ (detect_file_type payload = u "PNG" <->
      exists data, decode_payload payload = Return data
                   /\ begins_with data PNG_magic)
  /\ (detect_file_type payload = u "JPEG" <->
      exists data, decode_payload payload = Return data
                   /\ begins_with data JPEG_magic)
  /\ (detect_file_type payload = u "UNKNOWN" <->
      ~ exists data, decode_payload payload = Return data
                     /\ (begins_with data PDF_magic
                         \/ begins_with data PNG_magic
                         \/ begins_with data JPEG_magic)).
Proof.
  destruct (decode_payload payload) as [data | e] eqn:D.
  - rewrite (FileInfoFacts.detect_decoded payload data D).
    destruct (signatures_exclusive data) as [X1 X2].
    destruct (startswith data PDF_magic) eqn:E1;
      [destruct (X1 eq_refl) as [E2 E3] |
       destruct (startswith data PNG_magic) eqn:E2;
       [pose proof (X2 eq_refl) as E3 |
        destruct (startswith data JPEG_magic) eqn:E3]];
      clear X1 X2;
      repeat match goal with
             | E : startswith _ _ = true |- _ =>
                 apply (proj1 (startswith_begins _ _)) in E
             | E : startswith _ _ = false |- _ =>
                 apply (proj1 (startswith_not_begins _ _)) in E
             end;
      repeat split;
      try (intros H; vm_compute in H; discriminate H);
      try (intros _; exists data; tauto);
      try (intros (data' & H & B); injection H as <-; tauto);
      try (intros _ (data' & H & B); injection H as <-; tauto);
      try (intros H; exfalso; apply H; exists data; tauto).
  - unfold detect_file_type, detect_file_type_try. rewrite D. cbn [bind].
    repeat split;
      try (intros H; vm_compute in H; discriminate H);
      try (intros (data' & H & _); discriminate H);
      try (intros _ (data' & H & _); discriminate H).
Qed.

Lemma detect_file_type_exact_witness :
  detect_file_type pdf_1_4_payload = u "PDF".
Proof.
  apply (proj2 (proj1 (detect_file_type_exact pdf_1_4_payload))).
  exists pdf_1_4. split.
  - reflexivity.
  - exists [x2d; x31; x2e; x34]. reflexivity.
Defined.

(** X5. [get_file_info] reports success on a payload that does not
    decode: the message is the usual one, the type is UNKNOWN, the size
    is [0.0], and the default filename is [archivo.bin]. *)
Theorem get_file_info_undecodable (payload : str) (e : exn) :
  decode_payload payload = Raise e ->
  get_file_info payload None
  = {| message := u "Archivo recibido correctamente";
       filename := u "archivo.bin";
       file_type := u "UNKNOWN";
       file_size_kb := 0%Q |}.
Proof.
  intros H.
  unfold get_file_info, detect_file_type, detect_file_type_try,
    calculate_file_size, calculate_file_size_try.
  rewrite H. reflexivity.
Qed.

Lemma get_file_info_undecodable_witness :
  get_file_info (u "data:image/png;base64,A") None
  = {| message := u "Archivo recibido correctamente";
       filename := u "archivo.bin";
       file_type := u "UNKNOWN";
       file_size_kb := 0%Q |}.
Proof.
  exact (get_file_info_undecodable (u "data:image/png;base64,A")
           (BinasciiError (OneMoreThanMultipleOf4 1)) eq_refl).
Defined.

End FileInfoExtras.

(** ** The size reported for a file *)

Module SizeExtras.
Import FileInfoService.

Lemma round2_hundredths (n : Z) :
  round2 (n # 1024) = Qred (hundredths n # 100).
Proof. reflexivity. Qed.

Lemma hundredths_near (n : Z) :
  (100 * n - 512 <= 1024 * hundredths n <= 100 * n + 512)%Z.
Proof.
  unfold hundredths.
  pose proof (Z.div_mod (100 * n) 1024 ltac:(lia)) as E.
  pose proof (Z.mod_pos_bound (100 * n) 1024 ltac:(lia)) as B.
  destruct (2 * ((100 * n) mod 1024) <? 1024)%Z eqn:C1;
    [apply Z.ltb_lt in C1; lia | apply Z.ltb_ge in C1].
  destruct (1024 <? 2 * ((100 * n) mod 1024))%Z eqn:C2;
    [apply Z.ltb_lt in C2; lia | apply Z.ltb_ge in C2].
  destruct (Z.even _); lia.
Qed.

Lemma hundredths_monotone (n m : Z) :
  (n <= m)%Z -> (hundredths n <= hundredths m)%Z.
Proof.
  intros H. unfold hundredths.
  pose proof (Z.div_mod (100 * n) 1024 ltac:(lia)) as En.
  pose proof (Z.mod_pos_bound (100 * n) 1024 ltac:(lia)) as Bn.
  pose proof (Z.div_mod (100 * m) 1024 ltac:(lia)) as Em.
  pose proof (Z.mod_pos_bound (100 * m) 1024 ltac:(lia)) as Bm.
  destruct (Z.eq_dec ((100 * n) / 1024) ((100 * m) / 1024)) as [Q | Q].
  - rewrite <- Q in *.
    destruct (2 * ((100 * n) mod 1024) <? 1024)%Z eqn:C1;
      destruct (2 * ((100 * m) mod 1024) <? 1024)%Z eqn:D1;
      destruct (1024 <? 2 * ((100 * n) mod 1024))%Z eqn:C2;
      destruct (1024 <? 2 * ((100 * m) mod 1024))%Z eqn:D2;
      destruct (Z.even ((100 * n) / 1024));
      rewrite ?Z.ltb_lt, ?Z.ltb_ge in *; lia.
  - assert ((100 * n) / 1024 < (100 * m) / 1024)%Z by lia.
    destruct (2 * ((100 * n) mod 1024) <? 1024)%Z;
      destruct (2 * ((100 * m) mod 1024) <? 1024)%Z;
      destruct (1024 <? 2 * ((100 * n) mod 1024))%Z;
      destruct (1024 <? 2 * ((100 * m) mod 1024))%Z;
      destruct (Z.even ((100 * n) / 1024));
      destruct (Z.even ((100 * m) / 1024)); lia.
Qed.

Lemma hundredths_zero (n : Z) :
  (0 <= n)%Z -> (hundredths n = 0 <-> n <= 5)%Z.
Proof.
  intros Hn. pose proof (hundredths_near n) as N.
  split; intros H.
  - lia.
  - assert (0 <= hundredths n)%Z.
    { pose proof (hundredths_monotone 0 n Hn) as M.
      change (hundredths 0) with 0%Z in M. exact M. }
    pose proof (hundredths_monotone n 5 H) as M.
    change (hundredths 5) with 0%Z in M. lia.
Qed.

Lemma Qred_hundredths_le (a b : Z) :
  (Qred (a # 100) <= Qred (b # 100))%Q <-> (a <= b)%Z.
Proof.
  rewrite !Qred_correct. unfold Qle. cbn [Qnum Qden]. lia.
Qed.

Lemma Qred_hundredths_zero (a : Z) : Qred (a # 100) = 0%Q <-> a = 0%Z.
Proof.
  split; intros H.
  - pose proof (Qred_correct (a # 100)) as E. rewrite H in E.
    unfold Qeq in E. cbn [Qnum Qden] in E. lia.
  - subst a. reflexivity.
Qed.

Lemma size_decoded (payload : str) (data : bytes) :
  decode_payload payload = Return data ->
  calculate_file_size payload
  = Qred (hundredths (Z.of_nat (List.length data)) # 100).
Proof.
  intros D. unfold calculate_file_size, calculate_file_size_try.
  rewrite D. cbn [bind]. apply round2_hundredths.
Qed.

(** X6. For a payload that decodes, the size reported is the float that
    stands for [k / 100], where [k] is a whole number of hundredths of a
    kilobyte that is not negative, and the decimal [k / 100] differs
    from the exact size (bytes / 1024) by at most half a hundredth. *)
Theorem calculate_file_size_accuracy (payload : str) (data : bytes) :
  decode_payload payload = Return data ->
  let exact := (Z.of_nat (List.length data) # 1024)%Q in
  exists k : Z,
    calculate_file_size payload = Qred (k # 100)
    /\ (0 <= k)%Z
    /\ (exact - (1 # 200) <= k # 100)%Q
    /\ (k # 100 <= exact + (1 # 200))%Q.
Proof.
  intros D exact. subst exact.
  exists (hundredths (Z.of_nat (List.length data))).
  pose proof (hundredths_near (Z.of_nat (List.length data))) as N.
  split; [exact (size_decoded payload data D) |].
  unfold Qle, Qminus, Qplus, Qopp. cbn [Qnum Qden].
  repeat split; lia.
Qed.

Lemma calculate_file_size_accuracy_witness :
  exists k : Z,
    calculate_file_size pdf_1_4_payload = Qred (k # 100)
    /\ (0 <= k)%Z
    /\ ((8 # 1024) - (1 # 200) <= k # 100)%Q
    /\ (k # 100 <= (8 # 1024) + (1 # 200))%Q.
Proof.
  exact (calculate_file_size_accuracy pdf_1_4_payload pdf_1_4
           FileInfoFacts.pdf_1_4_decoded).
Defined.

(** X7. The size reported does not decrease when the file grows: of two
    payloads that decode, the one with at least as many bytes is
    reported at least as large. *)
Theorem calculate_file_size_monotone
        (p1 p2 : str) (d1 d2 : bytes) :
  decode_payload p1 = Return d1 ->
  decode_payload p2 = Return d2 ->
  (List.length d1 <= List.length d2)%nat ->
  (calculate_file_size p1 <= calculate_file_size p2)%Q.
Proof.
  intros D1 D2 L.
  rewrite (size_decoded p1 d1 D1), (size_decoded p2 d2 D2).
  apply Qred_hundredths_le, hundredths_monotone. lia.
Qed.

Lemma calculate_file_size_monotone_witness :
  (calculate_file_size (u "QUJD") <= calculate_file_size pdf_1_4_payload)%Q.
Proof.
  apply (calculate_file_size_monotone (u "QUJD") pdf_1_4_payload ABC pdf_1_4).
  - reflexivity.
  - reflexivity.
  - cbn. lia.
Defined.

(** X8. For a payload that decodes, the size reported is [0.0] exactly
    when the file has at most five bytes: [0.0] stands for an empty or
    very small file as well as for a payload that does not decode. *)
Theorem calculate_file_size_zero (payload : str) (data : bytes) :
  decode_payload payload = Return data ->
  (calculate_file_size payload = 0%Q <-> (List.length data <= 5)%nat).
Proof.
  intros D. rewrite (size_decoded payload data D), Qred_hundredths_zero.
  rewrite hundredths_zero by lia. lia.
Qed.

Lemma calculate_file_size_zero_witness :
  calculate_file_size (u "QUJD") = 0%Q.
Proof.
  apply (proj2 (calculate_file_size_zero (u "QUJD") ABC eq_refl)).
  cbn. lia.
Defined.

End SizeExtras.

(** ** What the base64 decoder lets through *)

Module Base64Extras.
Import Base64.

Ltac same_branches :=
  repeat match goal with
         | |- context [if ?b then _ else _] => destruct b
         end.

Lemma a2b_loop_insert (c : N) (s2 : list N) :
  skipped c = true ->
  forall s1 quad_pos leftchar pads out,
    a2b_loop (s1 ++ c :: s2) quad_pos leftchar pads out
    = a2b_loop (s1 ++ s2) quad_pos leftchar pads out.
Proof.
  intros Hc. unfold skipped, outside_alphabet in Hc.
  apply andb_prop in Hc. destruct Hc as [Hc Hp].
  apply andb_prop in Hc. destruct Hc as [_ Ht].
  apply negb_true_iff in Hp.
  induction s1 as [| x s1 IH]; intros quad_pos leftchar pads out.
  - cbn [app a2b_loop]. rewrite Hp, Ht. reflexivity.
  - cbn [app a2b_loop]. same_branches; try reflexivity; apply IH.
Qed.

Lemma b64decode_insert (c : N) (s1 s2 : str) :
  skipped c = true ->
  b64decode (s1 ++ c :: s2) = b64decode (s1 ++ s2).
Proof.
  intros Hc. unfold b64decode, a2b_base64.
  rewrite !forallb_app. cbn [forallb].
  assert ((c <? 128) = true) as ->.
  { unfold skipped, outside_alphabet in Hc.
    apply andb_prop in Hc. destruct Hc as [Hc _].
    apply andb_prop in Hc. tauto. }
  cbn [andb]. destruct (forallb _ s1 && forallb _ s2)%bool; [| reflexivity].
  apply a2b_loop_insert, Hc.
Qed.

Lemma before_comma_app_cases (x y : str) :
  before_comma (x ++ y)
  = if contains comma x then before_comma x else x ++ before_comma y.
Proof.
  induction x as [| c t IH]; [reflexivity |].
  cbn [app before_comma contains existsb]. rewrite (N.eqb_sym comma c).
  destruct (c =? comma); [reflexivity |].
  cbn [orb]. fold (contains comma t). rewrite IH.
  destruct (contains comma t); reflexivity.
Qed.

Lemma after_comma_app_cases (x y : str) :
  after_comma (x ++ y)
  = if contains comma x then after_comma x ++ y else after_comma y.
Proof.
  induction x as [| c t IH]; [reflexivity |].
  cbn [app after_comma contains existsb]. rewrite (N.eqb_sym comma c).
  destruct (c =? comma); [reflexivity |].
  cbn [orb]. fold (contains comma t). exact IH.
Qed.

(** X9. An ASCII character that is neither in the base64 alphabet nor
    the padding character (a line break, a space, a quote ...) is
    skipped by the decoder wherever it stands: taking it out of the
    payload changes neither the decoded bytes nor the failure, so the
    services accept line-wrapped payloads.  (The comma is left out: it
    separates the fields of the payload.) *)
Theorem decode_payload_skips (c : N) (s1 s2 : str) :
  skipped c = true ->
  c <> comma ->
  decode_payload (s1 ++ c :: s2) = decode_payload (s1 ++ s2)
  /\ forall filename_arg,
      FileInfoService.get_file_info (s1 ++ c :: s2) filename_arg
      = FileInfoService.get_file_info (s1 ++ s2) filename_arg.
Proof.
  intros Hc Hn.
  assert (D : decode_payload (s1 ++ c :: s2) = decode_payload (s1 ++ s2)).
  { apply N.eqb_neq in Hn.
    rewrite !decode_payload_segment, !contains_app.
    cbn [contains existsb]. rewrite (N.eqb_sym comma c), Hn. cbn [orb].
    fold (contains comma s2).
    rewrite !after_comma_app_cases.
    destruct (contains comma s1) eqn:E1; cbn [orb].
    - rewrite !before_comma_app_cases.
      destruct (contains comma (after_comma s1)); [reflexivity |].
      cbn [before_comma]. rewrite Hn.
      apply b64decode_insert, Hc.
    - cbn [after_comma]. rewrite Hn.
      destruct (contains comma s2); [reflexivity |].
      apply b64decode_insert, Hc. }
  split; [exact D |].
  intros filename_arg. apply FileInfoExtras.get_file_info_by_decoding, D.
Qed.

Lemma decode_payload_skips_witness :
  decode_payload (u "JVBE" ++ 10 :: u "Ri0xLjQ=") = decode_payload pdf_1_4_payload.
Proof.
  exact (proj1 (decode_payload_skips 10 (u "JVBE") (u "Ri0xLjQ=")
                  eq_refl ltac:(discriminate))).
Defined.

Import Base64Facts Sextets.

Lemma a2b_loop_b2a_padded (data : bytes) : forall rest pads out,
  (List.length data mod 3 <> 0)%nat ->
  a2b_loop (b2a_base64 data ++ rest) 0 0 pads out = Return (out ++ data).
Proof.
  induction data as [| a | a b | a b c l IH] using bytes_ind3;
    intros rest pads out L.
  - contradiction.
  - change (b2a_base64 [a] ++ rest)
      with (b2a (s0 (Byte.to_N a))
            :: b2a (N.shiftl (N.land (Byte.to_N a) 3) 4)
            :: BASE64_PAD :: BASE64_PAD :: rest).
    rewrite step0 by apply s0_lt.
    rewrite step1 by apply s1_last_lt.
    rewrite (to_byte_of _ a) by apply byte1_last.
    reflexivity.
  - change (b2a_base64 [a; b] ++ rest)
      with (b2a (s0 (Byte.to_N a))
            :: b2a (s1 (Byte.to_N a) (Byte.to_N b))
            :: b2a (N.shiftl (N.land (Byte.to_N b) 15) 2)
            :: BASE64_PAD :: rest).
    rewrite step0 by apply s0_lt.
    rewrite step1 by apply s1_lt.
    rewrite step2 by apply s2_last_lt.
    rewrite (to_byte_of _ a) by apply byte1.
    rewrite left1, (to_byte_of _ b) by apply byte2_last.
    rewrite <- app_assoc. reflexivity.
  - rewrite b2a_base64_group, <- app_assoc, a2b_group, IH, <- app_assoc.
    + reflexivity.
    + cbn [List.length] in L.
      replace (S (S (S (List.length l)))) with (List.length l + 1 * 3)%nat in L
        by lia.
      rewrite Nat.Div0.mod_add in L. exact L.
Qed.

(** X10. When the length of a file is not a multiple of three, its
    encoding ends with padding, and the decoder stops there: whatever
    ASCII text follows the encoding in the payload is ignored, and the
    file is decoded as if it were not there. *)
Theorem decode_payload_stops_at_padding (data : bytes) (trailing : str) :
  (List.length data mod 3 <> 0)%nat ->
  forallb (fun c => c <? 128) trailing = true ->
  contains comma trailing = false ->
  decode_payload (encode_image_to_base64 data ++ trailing) = Return data.
Proof.
  intros L Ha Hc.
  rewrite DecoderFacts.decode_payload_no_comma.
  - unfold encode_image_to_base64, b64encode, b64decode, a2b_base64.
    rewrite forallb_app, (proj1 (b2a_base64_chars data)), Ha. cbn [andb].
    apply (a2b_loop_b2a_padded data trailing 0 [] L).
  - rewrite contains_app, Hc.
    unfold encode_image_to_base64, b64encode.
    rewrite (proj2 (b2a_base64_chars data)). reflexivity.
Qed.

Lemma decode_payload_stops_at_padding_witness :
  decode_payload (u "JVBERi0xLjQ=QUJD") = Return pdf_1_4.
Proof.
  apply (decode_payload_stops_at_padding pdf_1_4 (u "QUJD")).
  - cbn. discriminate.
  - reflexivity.
  - reflexivity.
Defined.

Lemma a2b_loop_outside (s : str) : forall leftchar pads out,
  forallb outside_alphabet s = true ->
  a2b_loop s 0 leftchar pads out = Return out.
Proof.
  induction s as [| c t IH]; intros leftchar pads out H; [reflexivity |].
  cbn [forallb] in H. apply andb_prop in H. destruct H as [Hc Ht].
  unfold outside_alphabet in Hc. apply andb_prop in Hc.
  destruct Hc as [_ Hc].
  cbn [a2b_loop]. destruct (c =? BASE64_PAD).
  - cbn. apply IH, Ht.
  - rewrite Hc. apply IH, Ht.
Qed.

Lemma forallb_before_comma (P : N -> bool) (s : str) :
  forallb P s = true -> forallb P (before_comma s) = true.
Proof.
  induction s as [| c t IH]; [reflexivity |].
  cbn [forallb before_comma]. intros H. apply andb_prop in H.
  destruct H as [Hc Ht]. destruct (c =? comma); [reflexivity |].
  cbn [forallb]. rewrite Hc, (IH Ht). reflexivity.
Qed.

Lemma forallb_after_comma (P : N -> bool) (s : str) :
  forallb P s = true -> forallb P (after_comma s) = true.
Proof.
  induction s as [| c t IH]; [reflexivity |].
  cbn [forallb after_comma]. intros H. apply andb_prop in H.
  destruct H as [Hc Ht]. destruct (c =? comma); [exact Ht | exact (IH Ht)].
Qed.

Lemma outside_alphabet_ascii (s : str) :
  forallb outside_alphabet s = true -> forallb (fun c => c <? 128) s = true.
Proof.
  induction s as [| c t IH]; [reflexivity |].
  cbn [forallb]. intros H. apply andb_prop in H. destruct H as [Hc Ht].
  unfold outside_alphabet in Hc. apply andb_prop in Hc.
  destruct Hc as [-> _]. exact (IH Ht).
Qed.

(** X11. A payload made only of ASCII characters outside the base64
    alphabet (punctuation, spaces, padding characters ...) is not
    rejected: it decodes to the empty byte sequence.  So the file
    information reports an UNKNOWN file of size [0.0], and
    [process_image] does not raise the invalid-encoding error but calls
    the model with an empty file. *)
Theorem decode_payload_without_alphabet
        (self : GeminiService.GeminiService)
        (payload prompt mime_type : str)
        (calls : list GeminiService.GenerateContentCall) :
  forallb outside_alphabet payload = true ->
  decode_payload payload = Return []
  /\ FileInfoService.detect_file_type payload = u "UNKNOWN"
  /\ FileInfoService.calculate_file_size payload = 0%Q
  /\ snd (GeminiService.process_image self payload prompt mime_type calls)
     = calls ++ [model_call self [] prompt mime_type].
Proof.
  intros H.
  assert (D : decode_payload payload = Return []).
  { rewrite decode_payload_segment.
    set (segment := if contains comma payload
                    then before_comma (after_comma payload) else payload).
    assert (S : forallb outside_alphabet segment = true).
    { subst segment. destruct (contains comma payload); [| exact H].
      apply forallb_before_comma, forallb_after_comma, H. }
    unfold b64decode, a2b_base64.
    rewrite (outside_alphabet_ascii segment S).
    apply a2b_loop_outside, S. }
  split; [exact D | split; [| split]].
  - unfold FileInfoService.detect_file_type,
      FileInfoService.detect_file_type_try. rewrite D. reflexivity.
  - unfold FileInfoService.calculate_file_size,
      FileInfoService.calculate_file_size_try. rewrite D. reflexivity.
  - unfold GeminiService.process_image. rewrite D.
    fold (model_call self [] prompt mime_type).
    destruct (GeminiService.generate_content self _); reflexivity.
Qed.

Lemma decode_payload_without_alphabet_witness :
  decode_payload (u "?? !!") = Return []
  /\ FileInfoService.detect_file_type (u "?? !!") = u "UNKNOWN"
  /\ FileInfoService.calculate_file_size (u "?? !!") = 0%Q
  /\ snd (GeminiService.process_image answering (u "?? !!") (u "Extrae")
            GeminiService.default_mime_type [])
     = [model_call answering [] (u "Extrae") GeminiService.default_mime_type].
Proof.
  exact (decode_payload_without_alphabet answering (u "?? !!") (u "Extrae")
           GeminiService.default_mime_type [] eq_refl).
Defined.

End Base64Extras.

(** ** Outcomes of [process_image] *)

Module GeminiExtras.
Import GeminiService.

Lemma process_image_decoded (self : GeminiService.GeminiService)
      (payload prompt mime_type : str) (data : bytes)
      (calls : list GenerateContentCall) :
  decode_payload payload = Return data ->
  process_image self payload prompt mime_type calls
  = (match generate_content self (model_call self data prompt mime_type) with
     | Raise e => Raise e
     | Return response => parse_response response
     end,
     calls ++ [model_call self data prompt mime_type]).
Proof.
  intros D. unfold process_image. rewrite D.
  fold (model_call self data prompt mime_type).
  destruct (generate_content self _); reflexivity.
Qed.

(** X13. The bytes that reach the model are the bytes of the file: for
    a file encoded by [encode_image_to_base64], sent as it is or behind
    a data-URL prefix without comma, [process_image] calls the model
    once with exactly those bytes, the mime type it was given and the
    prompt followed by the fixed directive. *)
Theorem process_image_sends_file (self : GeminiService.GeminiService)
        (data : bytes) (prompt mime_type : str)
        (calls : list GenerateContentCall) :
  snd (process_image self (encode_image_to_base64 data) prompt mime_type calls)
  = calls ++ [model_call self data prompt mime_type]
  /\ forall prefix,
      contains comma prefix = false ->
      snd (process_image self (prefix ++ comma :: encode_image_to_base64 data)
             prompt mime_type calls)
      = calls ++ [model_call self data prompt mime_type].
Proof.
  split.
  - rewrite (process_image_decoded _ _ _ _ data _
               (decode_payload_encoded data)).
    reflexivity.
  - intros prefix Hp.
    assert (D : decode_payload (prefix ++ comma :: encode_image_to_base64 data)
                = Return data).
    { unfold decode_payload. rewrite payload_segment_prefixed.
      - apply Base64Facts.b64decode_b64encode.
      - exact Hp.
      - apply Base64Facts.b2a_base64_chars. }
    rewrite (process_image_decoded _ _ _ _ data _ D). reflexivity.
Qed.

Lemma process_image_sends_file_witness :
  snd (process_image answering
         (u "data:application/pdf;base64" ++ comma :: encode_image_to_base64 pdf_1_4)
         (u "Extrae") (u "application/pdf") [])
  = [model_call answering pdf_1_4 (u "Extrae") (u "application/pdf")].
Proof.
  exact (proj2 (process_image_sends_file answering pdf_1_4 (u "Extrae")
                  (u "application/pdf") [])
           (u "data:application/pdf;base64") eq_refl).
Defined.

End GeminiExtras.

(** ** Whitespace around the reply, and replies that are objects *)

Module ReplyExtras.
Import GeminiService.

Section Dropwhile.
Variable f : N -> bool.

Lemma dropwhile_all (s : str) : forallb f s = true -> dropwhile f s = [].
Proof.
  induction s as [| c t IH]; [reflexivity |].
  cbn [forallb dropwhile]. intros H. apply andb_prop in H.
  destruct H as [-> Ht]. exact (IH Ht).
Qed.

Lemma dropwhile_head (s t : str) (c : N) :
  dropwhile f s = c :: t -> f c = false.
Proof.
  induction s as [| x s IH]; [discriminate |].
  cbn [dropwhile]. destruct (f x) eqn:E; [exact IH |].
  intros H. injection H as <- _. exact E.
Qed.

Lemma dropwhile_split (s : str) :
  exists w, s = w ++ dropwhile f s /\ forallb f w = true.
Proof.
  induction s as [| c t (w & E & W)]; [exists []; split; reflexivity |].
  cbn [dropwhile]. destruct (f c) eqn:F.
  - exists (c :: w). cbn [app forallb]. rewrite F, W.
    split; [f_equal; exact E | reflexivity].
  - exists []. split; reflexivity.
Qed.

Lemma dropwhile_app_all (w s : str) :
  forallb f w = true -> dropwhile f (w ++ s) = dropwhile f s.
Proof.
  induction w as [| c w IH]; [reflexivity |].
  cbn [forallb app dropwhile]. intros H. apply andb_prop in H.
  destruct H as [-> Hw]. exact (IH Hw).
Qed.

Lemma dropwhile_app_kept (s w : str) :
  dropwhile f s <> [] -> dropwhile f (s ++ w) = dropwhile f s ++ w.
Proof.
  induction s as [| c t IH]; [contradiction |].
  cbn [app dropwhile]. destruct (f c); [exact IH | reflexivity].
Qed.

Lemma dropwhile_app_gone (s w : str) :
  dropwhile f s = [] -> forallb f w = true -> dropwhile f (s ++ w) = [].
Proof.
  induction s as [| c t IH]; intros H W.
  - apply dropwhile_all, W.
  - cbn [app dropwhile] in *. destruct (f c); [exact (IH H W) | discriminate].
Qed.

Lemma dropwhile_fixed (s : str) :
  match s with c :: _ => f c = false | [] => True end ->
  dropwhile f s = s.
Proof. destruct s as [| c t]; [reflexivity |]. cbn. intros ->. reflexivity. Qed.
End Dropwhile.

Lemma forallb_rev (f : N -> bool) (w : str) :
  forallb f w = true -> forallb f (rev w) = true.
Proof.
  intros H. apply forallb_forall. intros x Hx. apply in_rev in Hx.
  rewrite forallb_forall in H. exact (H x Hx).
Qed.

(** No whitespace is left at either end of a stripped text. *)
Lemma strip_ends (s : str) :
  match strip s with c :: _ => isspace c = false | [] => True end
  /\ match rev (strip s) with c :: _ => isspace c = false | [] => True end.
Proof.
  unfold strip. rewrite rev_involutive.
  set (d := dropwhile isspace s).
  set (e := dropwhile isspace (rev d)).
  split.
  - destruct (dropwhile_split isspace (rev d)) as (w & E & _).
    fold e in E. apply (f_equal (@rev N)) in E.
    rewrite rev_involutive, rev_app_distr in E.
    destruct (rev e) as [| c t]; [exact I |].
    cbn [app] in E. exact (dropwhile_head isspace s _ c E).
  - destruct e as [| c t] eqn:Ee; [exact I |].
    exact (dropwhile_head isspace (rev d) t c Ee).
Qed.

Lemma strip_idempotent (s : str) : strip (strip s) = strip s.
Proof.
  destruct (strip_ends s) as [H1 H2].
  unfold strip at 1.
  rewrite (dropwhile_fixed isspace _ H1), (dropwhile_fixed isspace _ H2).
  apply rev_involutive.
Qed.

Lemma strip_surrounded (w1 t w2 : str) :
  forallb isspace w1 = true -> forallb isspace w2 = true ->
  strip (w1 ++ t ++ w2) = strip t.
Proof.
  intros H1 H2. unfold strip.
  rewrite (dropwhile_app_all isspace w1 _ H1).
  destruct (dropwhile isspace t) as [| c d] eqn:D.
  - rewrite (dropwhile_app_gone isspace t w2 D H2). reflexivity.
  - rewrite dropwhile_app_kept by (rewrite D; discriminate).
    rewrite D, rev_app_distr.
    rewrite (dropwhile_app_all isspace (rev w2) _ (forallb_rev _ _ H2)).
    reflexivity.
Qed.

(** X15. A reply made of whitespace only is not taken for a missing
    reply: it is answered with the [raw_response] mapping holding the
    empty text, not with the no-response mapping. *)
Theorem parse_response_whitespace_only (t : str) :
  t <> [] ->
  forallb isspace t = true ->
  parse_response (reply t) = Return (PyDict [(u "raw_response", PyStr [])]).
Proof.
  intros Ht Hs.
  assert (S : strip t = []).
  { unfold strip. rewrite (dropwhile_all isspace t Hs). reflexivity. }
  rewrite (GeminiFacts.parse_response_fallback t Ht); rewrite S; reflexivity.
Qed.

Lemma parse_response_whitespace_only_witness :
  parse_response (reply [32; 10])
  = Return (PyDict [(u "raw_response", PyStr [])]).
Proof.
  exact (parse_response_whitespace_only [32; 10] ltac:(discriminate) eq_refl).
Defined.

(** X16. The text kept in the [raw_response] mapping never begins or
    ends with whitespace, and stripping it again changes nothing: when
    the stripped reply is rejected by [json.loads], the mapping holds a
    text [v] with [v.strip() == v]. *)
Theorem raw_response_is_stripped (t : str) :
  t <> [] ->
  Json.loads (strip t) = Raise JSONDecodeError ->
  exists v,
    parse_response (reply t) = Return (PyDict [(u "raw_response", PyStr v)])
    /\ strip v = v
    /\ match v with c :: _ => isspace c = false | [] => True end
    /\ match rev v with c :: _ => isspace c = false | [] => True end.
Proof.
  intros Ht Hl. exists (strip t).
  split; [exact (GeminiFacts.parse_response_fallback t Ht Hl) |].
  split; [apply strip_idempotent | apply strip_ends].
Qed.

Lemma raw_response_is_stripped_witness :
  exists v,
    parse_response (reply (u " no puedo" ++ [10]))
    = Return (PyDict [(u "raw_response", PyStr v)])
    /\ strip v = v
    /\ match v with c :: _ => isspace c = false | [] => True end
    /\ match rev v with c :: _ => isspace c = false | [] => True end.
Proof.
  exact (raw_response_is_stripped (u " no puedo" ++ [10])
           ltac:(discriminate) eq_refl).
Defined.

(** X17. Whitespace before and after a non-empty reply has no influence
    on the result: the reply is parsed, or kept as raw text, as if the
    whitespace were not there. *)
Theorem parse_response_ignores_surrounding_whitespace (w1 t w2 : str) :
  t <> [] ->
  forallb isspace w1 = true ->
  forallb isspace w2 = true ->
  parse_response (reply (w1 ++ t ++ w2)) = parse_response (reply t).
Proof.
  intros Ht H1 H2.
  assert (N : w1 ++ t ++ w2 <> []).
  { destruct w1; [destruct t; [contradiction | discriminate] | discriminate]. }
  unfold parse_response, reply, response_text.
  destruct (w1 ++ t ++ w2) as [| c l] eqn:E; [contradiction |].
  destruct t as [| c' t']; [contradiction |].
  rewrite <- E, (strip_surrounded w1 (c' :: t') w2 H1 H2). reflexivity.
Qed.

Lemma parse_response_ignores_surrounding_whitespace_witness :
  parse_response (reply ([10; 32] ++ numero_documento ++ [10]))
  = parse_response (reply numero_documento).
Proof.
  exact (parse_response_ignores_surrounding_whitespace
           [10; 32] numero_documento [10] ltac:(discriminate) eq_refl eq_refl).
Defined.

End ReplyExtras.

(** ** Replies that are JSON objects, and the shape of an encoding *)

Module ShapeExtras.
Import GeminiService.

Lemma JSONObject_dict (depth : nat) : forall s pairs v r,
  Json.JSONObject depth s pairs = Json.Scanned v r ->
  exists entries, v = PyDict entries.
Proof.
  induction depth as [| depth IH]; intros s pairs v r H; [discriminate |].
  cbn [Json.JSONObject] in H.
  JsonFacts.break_in H; try discriminate.
  - injection H as <- _. eexists; reflexivity.
  - exact (IH _ _ _ _ H).
Qed.

Lemma loads_brace_dict (rest : str) (obj : pyobj) :
  Json.loads (ord "{" :: rest) = Return obj ->
  exists entries, obj = PyDict entries.
Proof.
  unfold Json.loads.
  change (str_startswith (ord "{" :: rest) [65279]) with false.
  change (Json.skip_ws (ord "{" :: rest)) with (ord "{" :: rest).
  cbn [Json.scan_once].
  change (ord "{" =? Json.quote) with false.
  change (ord "{" =? ord "{") with true.
  cbv iota. intros H.
  destruct (match Json.skip_ws rest with
            | [] => _
            | _ :: _ => _
            end) as [v rest' | |] eqn:E; try discriminate.
  destruct (Json.skip_ws rest') eqn:W; [| discriminate].
  injection H as <-.
  JsonFacts.break_in E; try discriminate.
  - injection E as <- _. eexists; reflexivity.
  - exact (JSONObject_dict _ _ _ _ _ E).
Qed.

(** X18. When the stripped reply begins with an opening brace, whatever
    [process_image] returns for it is a mapping: the parsed object, or
    the [raw_response] mapping if the text is not valid JSON.  A reply
    of this form never yields a list, a string, a number, a boolean or
    [None]. *)
Theorem parse_response_object_reply (t rest : str) (obj : pyobj) :
  t <> [] ->
  strip t = ord "{" :: rest ->
  parse_response (reply t) = Return obj ->
  exists entries, obj = PyDict entries.
Proof.
  intros Ht Hs H.
  destruct (JsonFacts.loads_outcomes (strip t)) as [[parsed L] | L].
  - rewrite (GeminiFacts.parse_response_parsed t parsed Ht L) in H.
    injection H as <-. rewrite Hs in L. exact (loads_brace_dict rest parsed L).
  - rewrite (GeminiFacts.parse_response_fallback t Ht L) in H.
    injection H as <-. eexists; reflexivity.
Qed.

Lemma parse_response_object_reply_witness :
  parse_response (reply numero_documento)
  = Return (PyDict [(u "numero_documento", PyStr (u "123"))])
  /\ exists entries,
      PyDict [(u "numero_documento", PyStr (u "123"))] = PyDict entries.
Proof.
  assert (P : parse_response (reply numero_documento)
              = Return (PyDict [(u "numero_documento", PyStr (u "123"))]))
    by (vm_compute; reflexivity).
  split; [exact P |].
  exact (parse_response_object_reply numero_documento _ _
           ltac:(discriminate) eq_refl P).
Defined.

Import Base64 Base64Facts Sextets.

Lemma b2a_in_alphabet (n : N) : n < 64 -> alphabet_or_pad (b2a n) = true.
Proof.
  intros H. unfold alphabet_or_pad.
  destruct (a2b_b2a n H) as [-> _].
  apply N.ltb_lt in H. rewrite H. reflexivity.
Qed.

Ltac in_alphabet L :=
  let H := fresh in
  pose proof (b2a_in_alphabet _ L) as H;
  cbv beta zeta delta [s0 s1 s2 s3] in H;
  rewrite H; clear H.

(** X19. The text [encode_image_to_base64] produces for a file of [n]
    bytes has 4 * ceil(n / 3) characters, each of them in the base64
    alphabet or the padding character; it holds no comma, so when it is
    sent as a payload the whole of it is decoded. *)
Theorem encode_image_to_base64_shape (data : bytes) :
  List.length (encode_image_to_base64 data)
  = (4 * ((List.length data + 2) / 3))%nat
  /\ forallb alphabet_or_pad (encode_image_to_base64 data) = true
  /\ contains comma (encode_image_to_base64 data) = false
  /\ payload_segment (encode_image_to_base64 data)
     = Return (encode_image_to_base64 data).
Proof.
  unfold encode_image_to_base64, b64encode.
  split; [| split; [| split]].
  - induction data as [| a | a b | a b c l IH] using bytes_ind3;
      try reflexivity.
    rewrite b2a_base64_group, length_app, IH.
    cbn [List.length b2a_base64 app].
    replace (S (S (S (List.length l))) + 2)%nat
      with (List.length l + 2 + 1 * 3)%nat by lia.
    rewrite Nat.div_add by discriminate. lia.
  - induction data as [| a | a b | a b c l IH] using bytes_ind3.
    + reflexivity.
    + cbn [b2a_base64 forallb].
      in_alphabet (s0_lt a).
      in_alphabet (s1_last_lt a). reflexivity.
    + cbn [b2a_base64 forallb].
      in_alphabet (s0_lt a).
      in_alphabet (s1_lt a b).
      in_alphabet (s2_last_lt b). reflexivity.
    + cbn [b2a_base64 forallb].
      in_alphabet (s0_lt a).
      in_alphabet (s1_lt a b).
      in_alphabet (s2_lt b c).
      in_alphabet (s3_lt c). exact IH.
  - apply b2a_base64_chars.
  - unfold payload_segment.
    rewrite (proj2 (b2a_base64_chars data)). reflexivity.
Qed.

End ShapeExtras.

(** ** Text that is not ASCII *)

Module AsciiExtras.

Lemma not_all_ascii (s : str) (c : N) :
  In c s -> 128 <= c -> forallb (fun c => c <? 128) s = false.
Proof.
  intros Hin Hc. destruct (forallb _ s) eqn:E; [| reflexivity].
  rewrite forallb_forall in E. specialize (E c Hin).
  apply N.ltb_lt in E. lia.
Qed.

(** X20. A character that is not ASCII is not skipped like other
    characters outside the alphabet: a payload without comma that holds
    one anywhere does not decode.  The file information then reports an
    UNKNOWN file of size [0.0], and [process_image] raises the
    invalid-encoding error without calling the model. *)
Theorem decode_payload_not_ascii
        (self : GeminiService.GeminiService)
        (payload prompt mime_type : str) (c : N)
        (calls : list GeminiService.GenerateContentCall) :
  In c payload ->
  128 <= c ->
  contains comma payload = false ->
  decode_payload payload = Raise (ValueError Base64.only_ascii_msg)
  /\ FileInfoService.detect_file_type payload = u "UNKNOWN"
  /\ FileInfoService.calculate_file_size payload = 0%Q
  /\ GeminiService.process_image self payload prompt mime_type calls
     = (Raise (ValueError (u "Invalid base64 " ++ file_kind mime_type
                           ++ u " data")),
        calls).
Proof.
  intros Hin Hc Hn.
  assert (D : decode_payload payload = Raise (ValueError Base64.only_ascii_msg)).
  { rewrite (DecoderFacts.decode_payload_no_comma payload Hn).
    unfold Base64.b64decode. rewrite (not_all_ascii payload c Hin Hc).
    reflexivity. }
  split; [exact D | split; [| split]].
  - unfold FileInfoService.detect_file_type,
      FileInfoService.detect_file_type_try. rewrite D. reflexivity.
  - unfold FileInfoService.calculate_file_size,
      FileInfoService.calculate_file_size_try. rewrite D. reflexivity.
  - unfold GeminiService.process_image. rewrite D. reflexivity.
Qed.

Lemma decode_payload_not_ascii_witness :
  decode_payload (u "QUJD" ++ [233]) = Raise (ValueError Base64.only_ascii_msg)
  /\ FileInfoService.detect_file_type (u "QUJD" ++ [233]) = u "UNKNOWN"
  /\ FileInfoService.calculate_file_size (u "QUJD" ++ [233]) = 0%Q
  /\ GeminiService.process_image answering (u "QUJD" ++ [233]) (u "Extrae")
       GeminiService.default_mime_type []
     = (Raise (ValueError (u "Invalid base64 imagen data")), []).
Proof.
  apply (decode_payload_not_ascii answering (u "QUJD" ++ [233]) (u "Extrae")
           GeminiService.default_mime_type 233 []).
  - cbn. tauto.
  - lia.
  - reflexivity.
Defined.

End AsciiExtras.
